(** * scaleway-dynamic-inventory: a shallow embedding of the inventory script

    The Go program is one file: [main] dispatches on the first command-line
    argument, [getServers] groups the servers of the account by tag
    ([--list]) and [getServer] derives the Ansible variables of one host
    ([--host]).  This development embeds these functions, together with the
    small part of the Go standard library they call ([regexp], [strings],
    [strconv], [encoding/json]), and proves the properties the
    specification states about them.

    Go strings are byte strings: they are embedded as [string], whose
    characters are the 256 [ascii] values.  The two maps built by the program
    ([map[string][]string] and [map[string]string]) are embedded as [gmap]s
    keyed by [string]. *)

From Stdlib Require Import ZArith Ascii String.
From stdpp Require Import base option list strings gmap fin_maps sorting.

Local Open Scope string_scope.
Local Open Scope list_scope.
Local Open Scope Z_scope.

(** ** Package [regexp]

    The program compiles one pattern with [regexp.MustCompile] and only calls
    [MatchString] on it.  A compiled pattern is embedded as the syntax tree
    that the Go parser produces (the operators of [regexp/syntax] that the
    pattern of the program needs); matching is by derivatives, and
    [Matches] gives the language of a pattern as a relation.  The pattern of
    the program contains ASCII characters only, and no byte of a multi-byte
    UTF-8 sequence is an ASCII character, so that matching the bytes of the
    input is the same as matching its runes. *)
Module regexp.

Inductive Regexp : Type :=
| NoMatch : Regexp
| EmptyMatch : Regexp
| Literal : string -> Regexp
| CharClass : list (ascii * ascii) -> Regexp
| Concat : Regexp -> Regexp -> Regexp
| Alternate : Regexp -> Regexp -> Regexp
| Star : Regexp -> Regexp
| Plus : Regexp -> Regexp.

(** [c] lies in one of the inclusive ranges [lo-hi] of a character class. *)
Definition inRange (c : ascii) (r : ascii * ascii) : bool :=
  (N_of_ascii (fst r) <=? N_of_ascii c)%N && (N_of_ascii c <=? N_of_ascii (snd r))%N.

Definition inClass (c : ascii) (ranges : list (ascii * ascii)) : bool :=
  existsb (inRange c) ranges.

(** The language of a pattern. *)
Inductive Matches : Regexp -> string -> Prop :=
| MEmpty : Matches EmptyMatch ""
| MLiteral s : Matches (Literal s) s
| MClass c ranges :
    inClass c ranges = true -> Matches (CharClass ranges) (String c "")
| MConcat r1 r2 s1 s2 :
    Matches r1 s1 -> Matches r2 s2 -> Matches (Concat r1 r2) (s1 +:+ s2)
| MAltL r1 r2 s : Matches r1 s -> Matches (Alternate r1 r2) s
| MAltR r1 r2 s : Matches r2 s -> Matches (Alternate r1 r2) s
| MStarNil r : Matches (Star r) ""
| MStarApp r s1 s2 :
    Matches r s1 -> Matches (Star r) s2 -> Matches (Star r) (s1 +:+ s2)
| MPlus r s1 s2 :
    Matches r s1 -> Matches (Star r) s2 -> Matches (Plus r) (s1 +:+ s2).

(** Does the pattern match the empty string? *)
Fixpoint nullable (r : Regexp) : bool :=
  match r with
  | NoMatch => false
  | EmptyMatch => true
  | Literal s => if s is EmptyString then true else false
  | CharClass _ => false
  | Concat r1 r2 => nullable r1 && nullable r2
  | Alternate r1 r2 => nullable r1 || nullable r2
  | Star _ => true
  | Plus r1 => nullable r1
  end.

(** What is left of the pattern once it has read the byte [c]. *)
Fixpoint deriv (c : ascii) (r : Regexp) : Regexp :=
  match r with
  | NoMatch => NoMatch
  | EmptyMatch => NoMatch
  | Literal s =>
      match s with
      | EmptyString => NoMatch
      | String a s' => if Ascii.eqb c a then Literal s' else NoMatch
      end
  | CharClass ranges => if inClass c ranges then EmptyMatch else NoMatch
  | Concat r1 r2 =>
      if nullable r1
      then Alternate (Concat (deriv c r1) r2) (deriv c r2)
      else Concat (deriv c r1) r2
  | Alternate r1 r2 => Alternate (deriv c r1) (deriv c r2)
  | Star r1 => Concat (deriv c r1) (Star r1)
  | Plus r1 => Concat (deriv c r1) (Star r1)
  end.

(** Some prefix of [s] is in the language of [r]. *)
Fixpoint matchAt (r : Regexp) (s : string) : bool :=
  nullable r ||
  match s with
  | EmptyString => false
  | String c s' => matchAt (deriv c r) s'
  end.

(** [re.MatchString(s)]: the pattern is not anchored, it matches when some
    substring of [s] is in its language. *)
Fixpoint MatchString (re : Regexp) (s : string) : bool :=
  matchAt re s ||
  match s with
  | EmptyString => false
  | String _ s' => MatchString re s'
  end.

End regexp.

(** ** Package [strings] *)
Module strings.

(** [strings.HasPrefix(s, prefix)] *)
Fixpoint HasPrefix (s prefix : string) : bool :=
  match prefix, s with
  | EmptyString, _ => true
  | String _ _, EmptyString => false
  | String a prefix', String c s' => Ascii.eqb c a && HasPrefix s' prefix'
  end.

(** [strings.Contains(s, substr)]: [substr] occurs at some position of
    [s]. *)
Fixpoint Contains (s substr : string) : bool :=
  HasPrefix s substr ||
  match s with
  | EmptyString => false
  | String _ s' => Contains s' substr
  end.

End strings.

(** ** Package [strconv] *)
Module strconv.

Definition isDigit (c : ascii) : bool :=
  (48 <=? N_of_ascii c)%N && (N_of_ascii c <=? 57)%N.

(** The value of a string of decimal digits, most significant first;
    [None] when a byte is not a digit. *)
Fixpoint digits (acc : Z) (s : string) : option Z :=
  match s with
  | EmptyString => Some acc
  | String c s' =>
      if isDigit c
      then digits (10 * acc + (Z.of_N (N_of_ascii c) - 48)) s'
      else None
  end.

(** [strconv.Atoi(s)] on a 64-bit platform: an optional sign, then at
    least one decimal digit and nothing else, and the value must fit in an
    [int].  [None] stands for a non-nil error. *)
Definition Atoi (s : string) : option Z :=
  let '(neg, body) :=
    match s with
    | String "-" s' => (true, s')
    | String "+" s' => (false, s')
    | _ => (false, s)
    end in
  match body with
  | EmptyString => None
  | _ =>
      match digits 0 body with
      | None => None
      | Some n =>
          let v := if neg then - n else n in
          if (- 2 ^ 63 <=? v) && (v <=? 2 ^ 63 - 1) then Some v else None
      end
  end.

End strconv.

(** ** The Scaleway API client

    [types.ScalewayServer] carries many fields; the program reads the five
    below.  The public address is the nested struct [PublicAddress] with its
    field [IP]; a server without public address has the empty string
    there. *)
Record ScalewayIPAddress : Type := { IP : string }.

Record ScalewayServer : Type := {
  Identifier : string;
  Name : string;
  Tags : list string;
  PublicAddress : ScalewayIPAddress;
  PrivateIP : string;
}.

(** A Go [error] is carried by the text that [%s] prints for it. *)
Definition error : Type := string.

Inductive Result (A : Type) : Type :=
| Ok : A -> Result A
| Err : error -> Result A.
Arguments Ok {A} _.
Arguments Err {A} _.

(** The three methods of [api.ScalewayAPI] that the program calls, as the
    answers of the remote directory. *)
Record ScalewayAPI : Type := {
  GetServers : bool -> Z -> Result (list ScalewayServer);
  GetServerID : string -> Result string;
  GetServer : string -> Result ScalewayServer;
}.

(** The requests sent to the directory, in the order they are made. *)
Inductive Call : Type :=
| CallGetServers : bool -> Z -> Call
| CallGetServerID : string -> Call
| CallGetServer : string -> Call.

(** ** The process: output streams, requests, and the ways a run ends

    A computation either goes on with a value, or ends the process through
    [os.Exit(code)], or panics.  The state records what has been written to
    the two output streams and which requests have been sent. *)
Record Process : Type := {
  Stdout : string;
  Stderr : string;
  Calls : list Call;
}.

Definition start : Process := {| Stdout := ""; Stderr := ""; Calls := [] |}.

Inductive Outcome (A : Type) : Type :=
| Done : A -> Outcome A
| Exit : Z -> Outcome A
| Panic : string -> Outcome A.
Arguments Done {A} _.
Arguments Exit {A} _.
Arguments Panic {A} _.

Definition IO (A : Type) : Type := Process -> Outcome A * Process.

Definition ret {A} (a : A) : IO A := fun p => (Done a, p).

Definition bind {A B} (m : IO A) (k : A -> IO B) : IO B :=
  fun p =>
    match m p with
    | (Done a, p') => k a p'
    | (Exit c, p') => (Exit c, p')
    | (Panic msg, p') => (Panic msg, p')
    end.

(** The notations [x ← m; k] and [m;; k] of stdpp sequence computations. *)
#[global] Instance IO_ret : MRet IO := @ret.
#[global] Instance IO_bind : MBind IO := fun A B k m => bind m k.

(** [os.Exit(code)] *)
Definition os_Exit {A} (code : Z) : IO A := fun p => (Exit code, p).

(** A run-time panic. *)
Definition panic {A} (msg : string) : IO A := fun p => (Panic msg, p).

Definition newline : string := String (ascii_of_nat 10) "".

Fixpoint endsWithNewline (s : string) : bool :=
  match s with
  | EmptyString => false
  | String c EmptyString => Ascii.eqb c (ascii_of_nat 10)
  | String _ s' => endsWithNewline s'
  end.

(** [l.Printf(...)] for the logger [l] of the program (standard error, no
    prefix, no flag), applied to the formatted text: the logger writes the
    text on standard error and adds the newline when the text does not end
    with one. *)
Definition l_Printf (msg : string) : IO unit :=
  fun p =>
    (Done tt,
     {| Stdout := Stdout p;
        Stderr := Stderr p +:+ (if endsWithNewline msg then msg else msg +:+ newline);
        Calls := Calls p |}).

(** [fmt.Println(s)] *)
Definition fmt_Println (s : string) : IO unit :=
  fun p =>
    (Done tt,
     {| Stdout := Stdout p +:+ s +:+ newline;
        Stderr := Stderr p;
        Calls := Calls p |}).

(** Sending a request to the directory and reading its answer. *)
Definition request {A} (c : Call) (answer : Result A) : IO (Result A) :=
  fun p =>
    (Done answer,
     {| Stdout := Stdout p; Stderr := Stderr p; Calls := Calls p ++ [c] |}).

(** ** Global variables and constants of the program *)

(** [regexp.MustCompile("proxy[0-9]|master[[0-9]|worker+[0-9]")].  In the
    second alternative the class is [[[0-9]]: an opening bracket that does
    not start a named class is a member of the class.  In the third, [+]
    applies to the last character of [worker] only. *)
Definition allowedServerName_String : string :=
  "proxy[0-9]|master[[0-9]|worker+[0-9]".

Definition allowedServerName : regexp.Regexp :=
  regexp.Alternate
    (regexp.Alternate
       (regexp.Concat (regexp.Literal "proxy")
          (regexp.CharClass [("0", "9")]%char))
       (regexp.Concat (regexp.Literal "master")
          (regexp.CharClass [("[", "["); ("0", "9")]%char)))
    (regexp.Concat (regexp.Literal "worke")
       (regexp.Concat (regexp.Plus (regexp.Literal "r"))
          (regexp.CharClass [("0", "9")]%char))).

Definition MSG_PREFIX : string := "scw-inv:".

(** ** [getServers]: the servers grouped by tag ([--list]) *)

(** The body of the inner loop, for one tag of a server called [name]: the
    list of the tag is created empty when the tag is new, then the name is
    appended to it. *)
Definition getServers_tag (name : string)
    (result : gmap string (list string)) (tag : string) : gmap string (list string) :=
  let result :=
    match result !! tag with
    | Some _ => result
    | None => <[tag := []]> result
    end in
  <[tag := (result !!! tag) ++ [name]]> result.

(** The body of the outer loop, for one server: a server whose name the
    pattern does not match is skipped. *)
Definition getServers_server
    (result : gmap string (list string)) (server : ScalewayServer) : gmap string (list string) :=
  if negb (regexp.MatchString allowedServerName (Name server))
  then result
  else foldl (getServers_tag (Name server)) result (Tags server).

Definition getServers (scwApi : ScalewayAPI) : IO (gmap string (list string)) :=
  answer ← request (CallGetServers true 0) (GetServers scwApi true 0);
  servers ←
    match answer with
    | Err err =>
        l_Printf (MSG_PREFIX +:+ " failed to get servers: " +:+ err);;
        os_Exit 1
    | Ok servers => mret servers
    end;
  mret (foldl getServers_server ∅ servers).

(** ** [getScWServerByName]: the identifier of the name, then the server *)
Definition getScWServerByName (scwApi : ScalewayAPI) (serverName : string) : IO ScalewayServer :=
  answer ← request (CallGetServerID serverName) (GetServerID scwApi serverName);
  serverId ←
    match answer with
    | Err err =>
        l_Printf (MSG_PREFIX +:+ " failed to get server id with name: " +:+ err);;
        os_Exit 1
    | Ok serverId => mret serverId
    end;
  answer ← request (CallGetServer serverId) (GetServer scwApi serverId);
  match answer with
  | Err err =>
      l_Printf (MSG_PREFIX +:+ " failed to get server with id: " +:+ err);;
      os_Exit 1
  | Ok server => mret server
  end.

(** ** [getServer]: the variables of one host ([--host]) *)

(** The value given to [ansible_ssh_common_args] before the branch on the
    name (the line under the comment "Common proxy conf"). *)
Definition common_proxy_conf : string :=
  "-q -C -o ControlMaster=auto -o ControlPersist=5m -o ForwardAgent=yes -o StrictHostKeyChecking=no -o UserKnownHostsFile=/dev/null".

(** The text appended for a host reached through the gateway whose public
    address is [ip]. *)
Definition proxy_command (ip : string) : string :=
  " -o ProxyCommand=" +:+ String (ascii_of_nat 34) "ssh -W %h:%p -q root@" +:+ ip
    +:+ " -i ~/.ssh/scaleway.pem" +:+ String (ascii_of_nat 34) "".

(** [s[i:]] for [0 <= i <= len(s)]. *)
Fixpoint sliceFrom (s : string) (i : nat) : string :=
  match i, s with
  | O, _ => s
  | S i', String _ s' => sliceFrom s' i'
  | S _, EmptyString => EmptyString
  end.

(** "Build ansible hosts and takes care about public / private ip" *)
Definition build_ansible_host
    (server : ScalewayServer) (result : gmap string string) : gmap string string :=
  if negb (String.eqb (IP (PublicAddress server)) "")
  then <["ansible_host" := IP (PublicAddress server)]> result
  else <["ansible_host" := PrivateIP server]> result.

(** "Build the vpn_ip" *)
Definition build_vpn_ip
    (server : ScalewayServer) (result : gmap string string) : gmap string string :=
  let digitPos := Z.of_nat (String.length (Name server)) - 1 in
  if 1 <? digitPos then
    let lastDigit := sliceFrom (Name server) (Z.to_nat digitPos) in
    match strconv.Atoi lastDigit with
    | Some _ =>
        if strings.Contains (Name server) "proxy"
        then <["vpn_ip" := "192.168.66.1" +:+ lastDigit]> result
        else if strings.Contains (Name server) "master"
        then <["vpn_ip" := "192.168.66.2" +:+ lastDigit]> result
        else if strings.Contains (Name server) "worker"
        then <["vpn_ip" := "192.168.66.3" +:+ lastDigit]> result
        else result
    | None => result
    end
  else result.

Definition getServer (scwApi : ScalewayAPI) (serverName : string) : IO (gmap string string) :=
  (if negb (regexp.MatchString allowedServerName serverName)
   then
     l_Printf (MSG_PREFIX +:+ " server name allowed regexp: " +:+ allowedServerName_String);;
     os_Exit 1
   else mret tt);;
  let result : gmap string string := ∅ in
  let result := <["ansible_python_interpreter" := "/usr/bin/python3"]> result in
  let result := <["ansible_user" := "root"]> result in
  serverProxy0 ← getScWServerByName scwApi "proxy0";
  let result := <["ansible_ssh_common_args" := common_proxy_conf]> result in
  '(server, result) ←
    (if String.eqb serverName "proxy0"
     then mret (serverProxy0, <["proxy_inet" := "True"]> result)
     else
       server ← getScWServerByName scwApi serverName;
       mret (server,
             <["ansible_ssh_common_args" :=
                 (result !!! "ansible_ssh_common_args")
                   +:+ proxy_command (IP (PublicAddress serverProxy0))]> result));
  let result := build_ansible_host server result in
  let result := build_vpn_ip server result in
  mret result.

(** ** Package [encoding/json]

    [json.Marshal] on the two map types of the program.  A Go map is walked
    in an order that changes from one run to the next; the encoder collects
    the entries in that order, sorts them by key and writes them.  The walk
    is the argument [walk] below.  The encoder of a string (quoting and
    escapes) is the parameter [encodeString].  Marshalling these two types
    never returns an error. *)
Module json.
Section Marshal.

Variable encodeString : string -> string.

Fixpoint join (sep : string) (l : list string) : string :=
  match l with
  | [] => ""
  | [x] => x
  | x :: l' => x +:+ sep +:+ join sep l'
  end.

(** A string value, and a slice of strings (never nil in the program). *)
Definition encodeStrings (l : list string) : string :=
  "[" +:+ join "," (encodeString <$> l) +:+ "]".

(** The keys of a map are compared as byte strings. *)
Definition keyLe {V} (e1 e2 : string * V) : Prop := String.le e1.1 e2.1.

#[global] Instance keyLe_dec {V} : RelDecision (@keyLe V).
Proof. intros e1 e2. unfold keyLe. apply _. Defined.

Definition encodeMap {V} (encodeValue : V -> string) (walk : list (string * V)) : string :=
  "{" +:+ join "," ((λ e, encodeString e.1 +:+ ":" +:+ encodeValue e.2)
                      <$> merge_sort keyLe walk) +:+ "}".

End Marshal.
End json.

(** ** [main] and [initScwApi]

    What a run reads from its environment: the argument vector (the program
    name first), the environment variables, and what
    [api.NewScalewayAPI(orga, token, ...)] returns for given credentials. *)
Record World : Type := {
  os_Args : list string;
  os_Getenv : string -> string;
  api_NewScalewayAPI : string -> string -> Result ScalewayAPI;
}.

Section Program.

(** [strings.TrimSpace] *)
Variable TrimSpace : string -> string.

(** The string encoder of [encoding/json]. *)
Variable encodeString : string -> string.

(** The order in which this run walks a map. *)
Variable walk : ∀ V : Type, gmap string V -> list (string * V).

(** The global [scwApi] is assigned here once and only read afterwards: it
    is returned to [main], which passes it to the functions that read
    it. *)
Definition initScwApi (w : World) : IO ScalewayAPI :=
  let scwOrga := TrimSpace (os_Getenv w "SCALEWAY_ORGANIZATION") in
  (if String.eqb (TrimSpace scwOrga) ""
   then
     l_Printf (MSG_PREFIX +:+ " required SCALEWAY_ORGANIZATION env var is not set");;
     os_Exit 1
   else mret tt);;
  let scwToken := TrimSpace (os_Getenv w "SCALEWAY_TOKEN") in
  (if String.eqb (TrimSpace scwToken) ""
   then
     l_Printf (MSG_PREFIX +:+ " required SCALEWAY_TOKEN env var is not set");;
     os_Exit 1
   else mret tt);;
  match api_NewScalewayAPI w scwOrga scwToken with
  | Err err =>
      l_Printf (MSG_PREFIX +:+ " failed to create scaleway API instance: " +:+ err);;
      os_Exit 1
  | Ok api => mret api
  end.

Definition main (w : World) : IO unit :=
  scwApi ← initScwApi w;
  let osArg1 :=
    if (1 <? Z.of_nat (length (os_Args w)))
    then default "" (os_Args w !! 1%nat)
    else "--list" in
  jsonResponse ←
    (if String.eqb osArg1 "--list" then
       servers ← getServers scwApi;
       mret (Ok (json.encodeMap encodeString (json.encodeStrings encodeString)
                   (walk _ servers)))
     else if String.eqb osArg1 "--host" then
       (if (Z.of_nat (length (os_Args w)) <? 2)
        then
          l_Printf (MSG_PREFIX +:+ " hostname is required (--host <hostname>)");;
          os_Exit 1
        else mret tt);;
       match os_Args w !! 2%nat with
       | None => panic "runtime error: index out of range"
       | Some hostname =>
           vars ← getServer scwApi hostname;
           mret (Ok (json.encodeMap encodeString encodeString (walk _ vars)))
       end
     else
       l_Printf (MSG_PREFIX +:+ " usage: [--host|--list]");;
       os_Exit 1);
  match jsonResponse with
  | Err err =>
      l_Printf (MSG_PREFIX +:+ " failed to marshal the dynamic inventory: " +:+ err);;
      os_Exit 1
  | Ok jsonResponse => fmt_Println jsonResponse
  end.

End Program.

(** The value a computation returned, if it did. *)
Definition returned {A} (run : Outcome A * Process) : option A :=
  match run.1 with
  | Done a => Some a
  | _ => None
  end.

(** The exit status of a run: 0 when [main] returns, the argument of
    [os.Exit], 2 after a panic. *)
Definition exitCode {A} (o : Outcome A) : Z :=
  match o with
  | Done _ => 0
  | Exit code => code
  | Panic _ => 2
  end.

(** ** The vocabulary of the properties

    The notions in which the properties are stated.  Those about names,
    digits, classes and tags are written from the words of the
    specification, not from the program, and the theorems compare the program
    with them; [genericVars], [branchVars] and [extend] name the values that
    the maps of the program go through. *)

(** A decimal digit is one of the ten characters [0] to [9]. *)
Definition decimalDigits : list ascii :=
  ["0"; "1"; "2"; "3"; "4"; "5"; "6"; "7"; "8"; "9"]%char.

Definition isDecimalDigit (c : ascii) : Prop := c ∈ decimalDigits.

(** The string made of [n] characters [r]. *)
Fixpoint rs (n : nat) : string :=
  match n with
  | O => ""
  | S n' => String "r" (rs n')
  end.

(** The three shapes a match of the allowed-name pattern can have: [proxy]
    and a digit; [master] and an opening bracket or a digit; [worke], one or
    more [r], and a digit. *)
Definition allowedShape (mid : string) : Prop :=
  (exists d, isDecimalDigit d /\ mid = "proxy" +:+ String d "") \/
  (exists c, (c = "["%char \/ isDecimalDigit c) /\ mid = "master" +:+ String c "") \/
  (exists n d, (1 <= n)%nat /\ isDecimalDigit d /\
               mid = "worke" +:+ rs n +:+ String d "").

(** [name] contains [mid] somewhere. *)
Definition occursIn (mid name : string) : Prop :=
  exists pre post, name = pre +:+ mid +:+ post.

(** The directory resolves [name] to [server]: the name has an identifier,
    and the identifier a server. *)
Definition resolves (scwApi : ScalewayAPI) (name : string) (server : ScalewayServer) : Prop :=
  exists serverId,
    GetServerID scwApi name = Ok serverId /\ GetServer scwApi serverId = Ok server.

(** The line that reports a name refused by the allowed-name pattern. *)
Definition invalidNameLine : string :=
  "scw-inv: server name allowed regexp: proxy[0-9]|master[[0-9]|worker+[0-9]" +:+ newline.

(** The variables common to every host, as they are before the branch on
    the name. *)
Definition genericVars : gmap string string :=
  <["ansible_ssh_common_args" := common_proxy_conf]>
    (<["ansible_user" := "root"]>
       (<["ansible_python_interpreter" := "/usr/bin/python3"]> ∅)).

(** The variables after the branch on the name, for the gateway
    [serverProxy0]. *)
Definition branchVars (serverName : string) (serverProxy0 : ScalewayServer) : gmap string string :=
  if String.eqb serverName "proxy0"
  then <["proxy_inet" := "True"]> genericVars
  else <["ansible_ssh_common_args" :=
           common_proxy_conf +:+ proxy_command (IP (PublicAddress serverProxy0))]> genericVars.

(** [d] is the final character of [name]. *)
Definition endsWith (name : string) (d : ascii) : Prop :=
  exists pre, name = pre +:+ String d "".

(** The class of a name gives the first digit of the last octet: [1] when
    the name contains [proxy]; else [2] when it contains [master]; else [3]
    when it contains [worker]. *)
Definition classOctet (name octet : string) : Prop :=
  (occursIn "proxy" name /\ octet = "1") \/
  (~ occursIn "proxy" name /\ occursIn "master" name /\ octet = "2") \/
  (~ occursIn "proxy" name /\ ~ occursIn "master" name /\
   occursIn "worker" name /\ octet = "3").

(** The names that one server adds to the list of [tag]: its name, once for
    each time the tag stands among its tags, when its name is allowed. *)
Definition contribution (tag : string) (server : ScalewayServer) : list string :=
  if regexp.MatchString allowedServerName (Name server)
  then (fun _ => Name server) <$> filter (fun t => t = tag) (Tags server)
  else [].

(** The names under [tag], server after server in the order of the
    directory. *)
Definition tagged (tag : string) (servers : list ScalewayServer) : list string :=
  servers ≫= contribution tag.

(** Appending [names] to the entry [entry] of a map: nothing changes when
    there is no name to append, and a missing entry starts empty. *)
Definition extend (entry : option (list string)) (names : list string) : option (list string) :=
  match names with
  | [] => entry
  | _ => Some (default [] entry ++ names)
  end.

(** The value that the specification gives for the common arguments. *)
Definition specified_common_args : string :=
  "-o ControlMaster=auto -o ControlPersist=5m -o ForwardAgent=yes -o StrictHostKeyChecking=no -o UserKnownHostsFile=/dev/null".

(** ** An example account

    Six servers and a directory that resolves a name to the server of that
    name; the examples and the runs on concrete inputs below use it. *)
Definition mkServer (id name : string) (tags : list string) (public private : string) : ScalewayServer :=
  {| Identifier := id; Name := name; Tags := tags;
     PublicAddress := {| IP := public |}; PrivateIP := private |}.

Definition exampleProxy0 : ScalewayServer :=
  mkServer "id-0" "proxy0" ["gateway"; "all"] "51.15.0.1" "10.0.0.1".
Definition exampleMaster3 : ScalewayServer :=
  mkServer "id-1" "master3" ["kube"; "all"] "" "10.0.0.23".
Definition exampleWorker10 : ScalewayServer :=
  mkServer "id-2" "worker10" ["all"] "51.15.0.9" "10.0.0.30".
Definition exampleUnclassified9 : ScalewayServer :=
  mkServer "id-3" "unclassified9" ["all"] "" "10.0.0.99".
Definition exampleProxy7 : ScalewayServer :=
  mkServer "id-4" "proxy7" [] "51.15.0.7" "10.0.0.7".

Definition exampleProxy1Backup : ScalewayServer :=
  mkServer "id-5" "proxy1backup" ["backup"; "all"] "" "10.0.0.11".

Definition exampleServers : list ScalewayServer :=
  [exampleProxy0; exampleMaster3; exampleWorker10; exampleUnclassified9; exampleProxy7;
   exampleProxy1Backup].

Fixpoint findServer (key : ScalewayServer -> string) (k : string)
    (servers : list ScalewayServer) : Result ScalewayServer :=
  match servers with
  | [] => Err "no such server"
  | server :: servers' =>
      if String.eqb (key server) k then Ok server else findServer key k servers'
  end.

Definition exampleApi : ScalewayAPI :=
  {| GetServers := fun _ _ => Ok exampleServers;
     GetServerID := fun name =>
       match findServer Name name exampleServers with
       | Ok server => Ok (Identifier server)
       | Err err => Err err
       end;
     GetServer := fun serverId => findServer Identifier serverId exampleServers |}.

(** [strings.TrimSpace] on ASCII strings: the white space at both ends is
    removed. *)
Fixpoint trimLeft (s : string) : string :=
  match s with
  | EmptyString => EmptyString
  | String c s' => if Ascii.is_space c then trimLeft s' else s
  end.

Definition asciiTrimSpace (s : string) : string :=
  String.rev (trimLeft (String.rev (trimLeft s))).

(** A string encoder for strings that need no escape: the string between
    double quotes. *)
Definition plainEncodeString (s : string) : string :=
  String (ascii_of_nat 34) s +:+ String (ascii_of_nat 34) "".

(** Two orders in which a run may walk a map. *)
Definition walkForward (V : Type) (m : gmap string V) : list (string * V) :=
  map_to_list m.

Definition walkBackward (V : Type) (m : gmap string V) : list (string * V) :=
  reverse (map_to_list m).

(** A machine on which both credentials are set and the client of the
    example account is created. *)
Definition exampleWorld (args : list string) : World :=
  {| os_Args := args;
     os_Getenv := fun name =>
       if String.eqb name "SCALEWAY_ORGANIZATION" then " org-1 "
       else if String.eqb name "SCALEWAY_TOKEN" then "secret"
       else "";
     api_NewScalewayAPI := fun _ _ => Ok exampleApi |}.

(** The same machine with another argument vector. *)
Definition withArgs (w : World) (args : list string) : World :=
  {| os_Args := args;
     os_Getenv := os_Getenv w;
     api_NewScalewayAPI := api_NewScalewayAPI w |}.

(** The usage line. *)
Definition usageLine : string := "scw-inv: usage: [--host|--list]" +:+ newline.

(** A text is one line: a body without newline, then a newline. *)
Definition isOneLine (text : string) : Prop :=
  exists body, text = body +:+ newline /\ ~ occursIn newline body.

(** ** The vocabulary of the ProxyCommand clause *)

Definition doubleQuote : string := String (ascii_of_nat 34) "".

(** The clause of the specification for the gateway address [ip]: the
    directive [ProxyCommand=], then, between double quotes, the relay
    command. *)
Definition specifiedProxyCommand (ip : string) : string :=
  "ProxyCommand=" +:+ doubleQuote +:+ "ssh -W %h:%p -q root@" +:+ ip
    +:+ " -i ~/.ssh/scaleway.pem" +:+ doubleQuote.

(** The number of positions of [s] at which [substr] occurs. *)
Fixpoint occurrences (substr s : string) : nat :=
  (if strings.HasPrefix s substr then 1 else 0) +
  match s with
  | EmptyString => 0
  | String _ s' => occurrences substr s'
  end.

(** No end of [s] is the beginning of an occurrence of [substr] that would
    go on after [s]: each non-empty end of [s] either starts with [substr]
    or departs from it, and [substr] is not empty. *)
Fixpoint selfContained (substr s : string) : bool :=
  match s with
  | EmptyString => negb (strings.HasPrefix EmptyString substr)
  | String _ s' =>
      (strings.HasPrefix s substr || negb (strings.HasPrefix substr s))
      && selfContained substr s'
  end.

(** ** The vocabulary of the output

    The shape of the JSON text, written without reference to the encoder of
    the program: the texts of the members in the order given, between braces
    and separated by commas. *)
Fixpoint afterCommas (l : list string) : string :=
  match l with
  | [] => ""
  | x :: l' => "," +:+ x +:+ afterCommas l'
  end.

Definition commas (l : list string) : string :=
  match l with
  | [] => ""
  | x :: l' => x +:+ afterCommas l'
  end.

Definition jsonArray (elements : list string) : string :=
  "[" +:+ commas elements +:+ "]".

Definition jsonObject (members : list (string * string)) : string :=
  "{" +:+ commas ((fun member => member.1 +:+ ":" +:+ member.2) <$> members) +:+ "}".

(** The variables of a host in the increasing order of their names: the
    four that are always there, [proxy_inet] for the gateway, [vpn_ip] when
    there is one. *)
Definition hostEntries (isGateway : bool) (host args : string) (vpn : option string) :
    list (string * string) :=
  [("ansible_host", host);
   ("ansible_python_interpreter", "/usr/bin/python3");
   ("ansible_ssh_common_args", args);
   ("ansible_user", "root")]
  ++ (if isGateway then [("proxy_inet", "True")] else [])
  ++ (match vpn with Some v => [("vpn_ip", v)] | None => [] end).

(** The string encoder of [encoding/json] on ASCII strings, as [json.Marshal]
    uses it: the double quote and the backslash get a backslash; newline,
    carriage return and tab are written with their letter; the other control
    characters and the three characters [<], [>] and [&] are written as
    [\u00] and two hexadecimal digits; every other character stands for
    itself. *)
Definition backslash : string := String (ascii_of_nat 92) "".

Definition hexDigit (n : N) : string :=
  String.substring (N.to_nat n) 1 "0123456789abcdef".

Definition escapeByte (c : ascii) : string :=
  let n := N_of_ascii c in
  if (n =? 34)%N then backslash +:+ doubleQuote
  else if (n =? 92)%N then backslash +:+ backslash
  else if (n =? 10)%N then backslash +:+ "n"
  else if (n =? 13)%N then backslash +:+ "r"
  else if (n =? 9)%N then backslash +:+ "t"
  else if (n <? 32)%N || (n =? 38)%N || (n =? 60)%N || (n =? 62)%N
  then backslash +:+ "u00" +:+ hexDigit (n / 16) +:+ hexDigit (n mod 16)
  else String c "".

Fixpoint escape (s : string) : string :=
  match s with
  | EmptyString => ""
  | String c s' => escapeByte c +:+ escape s'
  end.

Definition asciiEncodeString (s : string) : string :=
  doubleQuote +:+ escape s +:+ doubleQuote.

(** ** The vocabulary of the runs of [main] *)

(** What [l.Printf] adds to standard error for the text [msg]. *)
Definition logged (msg : string) : string :=
  if endsWithNewline msg then msg else msg +:+ newline.

(** The state of a process that has written [line] on standard error and
    nothing else. *)
Definition complained (p : Process) (line : string) : Process :=
  {| Stdout := Stdout p; Stderr := Stderr p +:+ line; Calls := Calls p |}.

(** The state of a process that has sent the requests [calls] and nothing
    else. *)
Definition requested (p : Process) (calls : list Call) : Process :=
  {| Stdout := Stdout p; Stderr := Stderr p; Calls := Calls p ++ calls |}.

(** The state of a process that has written [text] on standard output and
    nothing else. *)
Definition printed (p : Process) (text : string) : Process :=
  {| Stdout := Stdout p +:+ text; Stderr := Stderr p; Calls := Calls p |}.

(** The two credentials as [initScwApi] reads them. *)
Definition organization (TrimSpace : string -> string) (w : World) : string :=
  TrimSpace (os_Getenv w "SCALEWAY_ORGANIZATION").

Definition token (TrimSpace : string -> string) (w : World) : string :=
  TrimSpace (os_Getenv w "SCALEWAY_TOKEN").

(** Both credentials are set and the client [scwApi] is created from
    them. *)
Definition configured (TrimSpace : string -> string) (w : World) (scwApi : ScalewayAPI) : Prop :=
  TrimSpace (organization TrimSpace w) <> "" /\
  TrimSpace (token TrimSpace w) <> "" /\
  api_NewScalewayAPI w (organization TrimSpace w) (token TrimSpace w) = Ok scwApi.

(** The run asks for the list: no argument, or [--list] as the first. *)
Definition asksList (w : World) : Prop :=
  (length (os_Args w) <= 1)%nat \/ os_Args w !! 1%nat = Some "--list".

(** A machine given by its argument vector, its two environment variables
    and the answer of the client constructor. *)
Definition mkWorld (args : list string) (orga tok : string)
    (client : Result ScalewayAPI) : World :=
  {| os_Args := args;
     os_Getenv := fun name =>
       if String.eqb name "SCALEWAY_ORGANIZATION" then orga
       else if String.eqb name "SCALEWAY_TOKEN" then tok
       else "";
     api_NewScalewayAPI := fun _ _ => client |}.

(** A directory that does not answer. *)
Definition downApi : ScalewayAPI :=
  {| GetServers := fun _ _ => Err "connection refused";
     GetServerID := fun _ => Err "connection refused";
     GetServer := fun _ => Err "connection refused" |}.

(** An account with nothing to list: one server with a name that is not
    allowed, one allowed server without tag. *)
Definition bareApi : ScalewayAPI :=
  {| GetServers := fun _ _ => Ok [exampleUnclassified9; exampleProxy7];
     GetServerID := fun _ => Err "no such server";
     GetServer := fun _ => Err "no such server" |}.

(** The six variables [getServer] can set. *)
Definition hostVarNames : list string :=
  ["ansible_python_interpreter"; "ansible_user"; "ansible_ssh_common_args";
   "ansible_host"; "proxy_inet"; "vpn_ip"].

(** * Properties *)

(** ** Strings *)

Lemma app_String a s t : String a s +:+ t = String a (s +:+ t).
Proof. reflexivity. Qed.

Lemma app_empty_l s : "" +:+ s = s.
Proof. reflexivity. Qed.

Lemma app_empty_r s : s +:+ "" = s.
Proof. induction s as [|a s IH]; [done|]. by rewrite app_String, IH. Qed.

Lemma app_assoc_string s t u : (s +:+ t) +:+ u = s +:+ (t +:+ u).
Proof. induction s as [|a s IH]; [done|]. by rewrite !app_String, IH. Qed.

Lemma app_eq_empty s t : s +:+ t = "" -> s = "" /\ t = "".
Proof. destruct s; [done|]. rewrite app_String. discriminate. Qed.

Lemma app_eq_String s t c u :
  s +:+ t = String c u ->
  (s = "" /\ t = String c u) \/ (exists s', s = String c s' /\ u = s' +:+ t).
Proof.
  destruct s as [|a s]; [by left|].
  rewrite app_String. intros [= -> <-]. right. by exists s.
Qed.

Lemma length_app_string s t :
  String.length (s +:+ t) = (String.length s + String.length t)%nat.
Proof. induction s as [|a s IH]; [done|]. rewrite app_String. simpl. by rewrite IH. Qed.

(** ** Package [regexp]: matching by derivatives computes the language *)
Section regexp_correct.
Import regexp.

Lemma Matches_nullable r s : Matches r s -> s = "" -> nullable r = true.
Proof.
  induction 1 as [|s|c ranges Hc|r1 r2 s1 s2 _ IH1 _ IH2|r1 r2 s _ IH
                 |r1 r2 s _ IH|r|r s1 s2 _ IH1 _ IH2|r s1 s2 _ IH1 _ IH2];
    intros E; simpl; try done.
  - by subst.
  - apply app_eq_empty in E as [-> ->]. by rewrite IH1, IH2.
  - by rewrite IH.
  - rewrite IH by done. by destruct (nullable r1).
  - apply app_eq_empty in E as [-> ->]. by apply IH1.
Qed.

Lemma nullable_Matches r : nullable r = true -> Matches r "".
Proof.
  induction r as [| |s|ranges|r1 IH1 r2 IH2|r1 IH1 r2 IH2|r IH|r IH]; simpl;
    intros E; try done.
  - constructor.
  - destruct s; [constructor|done].
  - apply andb_true_iff in E as [E1 E2].
    change "" with ("" +:+ ""). constructor; auto.
  - apply orb_true_iff in E as [E|E]; [apply MAltL|apply MAltR]; auto.
  - constructor.
  - change "" with ("" +:+ ""). constructor; [auto|constructor].
Qed.

Lemma nullable_spec r : nullable r = true <-> Matches r "".
Proof. split; [apply nullable_Matches|]. intros H. by eapply Matches_nullable. Qed.

(** A derivative matches what the pattern matches after reading [c]. *)
Lemma deriv_sound c r : forall s, Matches (deriv c r) s -> Matches r (String c s).
Proof.
  induction r as [| |l|ranges|r1 IH1 r2 IH2|r1 IH1 r2 IH2|r IH|r IH]; simpl;
    intros s H.
  - inversion H.
  - inversion H.
  - destruct l as [|a l]; [inversion H|].
    destruct (Ascii.eqb_spec c a) as [->|]; inversion H; subst. constructor.
  - destruct (inClass c ranges) eqn:Hc; inversion H; subst. by constructor.
  - destruct (nullable r1) eqn:Hn.
    + inversion H as [| | | |? ? ? H'|? ? ? H'| | |]; subst.
      * inversion H'; subst. rewrite <- app_String. constructor; auto.
      * rewrite <- (app_empty_l (String c s)).
        constructor; [by apply nullable_Matches|auto].
    + inversion H; subst. rewrite <- app_String. constructor; auto.
  - inversion H; subst; [apply MAltL|apply MAltR]; auto.
  - inversion H; subst. rewrite <- app_String. constructor; auto.
  - inversion H; subst. rewrite <- app_String. constructor; auto.
Qed.

Lemma deriv_complete c r w :
  Matches r w -> forall s, w = String c s -> Matches (deriv c r) s.
Proof.
  induction 1 as [|l|a ranges Ha|r1 r2 s1 s2 H1 IH1 H2 IH2|r1 r2 s0 _ IH
                 |r1 r2 s0 _ IH|r|r s1 s2 H1 IH1 H2 IH2|r s1 s2 H1 IH1 H2 IH2];
    intros s E; simpl.
  - done.
  - subst. rewrite Ascii.eqb_refl. constructor.
  - injection E as -> <-. rewrite Ha. constructor.
  - apply app_eq_String in E as [[-> ->]|(s1' & -> & ->)].
    + rewrite (Matches_nullable _ _ H1 eq_refl). apply MAltR. by apply IH2.
    + destruct (nullable r1).
      * apply MAltL. constructor; auto.
      * constructor; auto.
  - apply MAltL. by apply IH.
  - apply MAltR. by apply IH.
  - done.
  - apply app_eq_String in E as [[-> ->]|(s1' & -> & ->)].
    + by apply IH2.
    + constructor; auto.
  - apply app_eq_String in E as [[-> ->]|(s1' & -> & ->)].
    + by apply IH2.
    + constructor; auto.
Qed.

Lemma deriv_spec c r s : Matches (deriv c r) s <-> Matches r (String c s).
Proof. split; [apply deriv_sound|]. intros H. by eapply deriv_complete. Qed.

(** [matchAt] finds the prefixes of [s] that the pattern matches. *)
Lemma matchAt_spec r s :
  matchAt r s = true <-> exists mid post, s = mid +:+ post /\ Matches r mid.
Proof.
  revert r. induction s as [|c s IH]; intros r; simpl.
  - rewrite orb_false_r, nullable_spec. split.
    + intros H. by exists "", "".
    + intros (mid & post & E & H). symmetry in E.
      apply app_eq_empty in E as [-> _]. done.
  - rewrite orb_true_iff, nullable_spec, IH. split.
    + intros [H|(mid & post & -> & H)].
      * by exists "", (String c s).
      * exists (String c mid), post. split; [done|]. by apply deriv_spec.
    + intros (mid & post & E & H). symmetry in E.
      apply app_eq_String in E as [[-> _]|(mid' & -> & ->)]; [by left|].
      right. exists mid', post. split; [done|]. by apply deriv_spec.
Qed.

(** [MatchString] finds the substrings of [s] that the pattern matches. *)
Lemma MatchString_spec re s :
  MatchString re s = true <->
  exists pre mid post, s = pre +:+ mid +:+ post /\ Matches re mid.
Proof.
  induction s as [|c s IH]; cbn [MatchString].
  - rewrite orb_false_r, matchAt_spec. split.
    + intros (mid & post & E & H). by exists "", mid, post.
    + intros (pre & mid & post & E & H). symmetry in E.
      apply app_eq_empty in E as [_ E]. apply app_eq_empty in E as [-> _].
      by exists "", "".
  - rewrite orb_true_iff, matchAt_spec, IH. split.
    + intros [(mid & post & E & H)|(pre & mid & post & -> & H)].
      * by exists "", mid, post.
      * by exists (String c pre), mid, post.
    + intros (pre & mid & post & E & H). destruct pre as [|a pre].
      * left. by exists mid, post.
      * rewrite app_String in E. injection E as -> ->.
        right. by exists pre, mid, post.
Qed.

End regexp_correct.

(** ** The allowed-name pattern *)

Lemma inClass_digit c :
  regexp.inClass c [("0", "9")]%char = bool_decide (isDecimalDigit c).
Proof.
  destruct c as [b0 b1 b2 b3 b4 b5 b6 b7].
  destruct b0, b1, b2, b3, b4, b5, b6, b7; vm_compute; reflexivity.
Qed.

Lemma inClass_bracket_digit c :
  regexp.inClass c [("[", "["); ("0", "9")]%char
  = bool_decide (c = "["%char \/ isDecimalDigit c).
Proof.
  destruct c as [b0 b1 b2 b3 b4 b5 b6 b7].
  destruct b0, b1, b2, b3, b4, b5, b6, b7; vm_compute; reflexivity.
Qed.

Lemma isDigit_decimal c : strconv.isDigit c = bool_decide (isDecimalDigit c).
Proof.
  destruct c as [b0 b1 b2 b3 b4 b5 b6 b7].
  destruct b0, b1, b2, b3, b4, b5, b6, b7; vm_compute; reflexivity.
Qed.

Lemma rs_app n m : rs n +:+ rs m = rs (n + m).
Proof. induction n as [|n IH]; [done|]. simpl rs. by rewrite app_String, IH. Qed.

Lemma Matches_Literal s w : regexp.Matches (regexp.Literal s) w -> w = s.
Proof. by inversion 1. Qed.

Lemma Matches_Star_r r w :
  regexp.Matches r w -> r = regexp.Star (regexp.Literal "r") -> exists n, w = rs n.
Proof.
  induction 1 as [| | | | | | |r s1 s2 H1 _ _ IH2|]; intros E; try done.
  - by exists O.
  - injection E as ->. apply Matches_Literal in H1 as ->.
    destruct (IH2 eq_refl) as [n ->]. by exists (S n).
Qed.

Lemma Star_r_Matches n : regexp.Matches (regexp.Star (regexp.Literal "r")) (rs n).
Proof.
  induction n as [|n IH]; [constructor|].
  change (rs (S n)) with ("r" +:+ rs n). constructor; [constructor|done].
Qed.

(** The language of the pattern is the set of strings of the three shapes. *)
Lemma allowedServerName_language mid :
  regexp.Matches allowedServerName mid <-> allowedShape mid.
Proof.
  unfold allowedServerName, allowedShape. split.
  - intros H. inversion H as [| | | |? ? ? H1|? ? ? H1| | |]; subst; clear H.
    + inversion H1 as [| | | |? ? ? H2|? ? ? H2| | |]; subst; clear H1.
      * left. inversion H2 as [| | |? ? ? ? Ha Hb| | | | |]; subst.
        apply Matches_Literal in Ha as ->.
        inversion Hb as [| |c ? Hc| | | | | |]; subst.
        rewrite inClass_digit in Hc. apply bool_decide_eq_true in Hc. eauto.
      * right; left. inversion H2 as [| | |? ? ? ? Ha Hb| | | | |]; subst.
        apply Matches_Literal in Ha as ->.
        inversion Hb as [| |c ? Hc| | | | | |]; subst.
        rewrite inClass_bracket_digit in Hc. apply bool_decide_eq_true in Hc. eauto.
    + right; right. inversion H1 as [| | |? ? ? ? Ha Hb| | | | |]; subst.
      apply Matches_Literal in Ha as ->.
      inversion Hb as [| | |? ? ? ? Hc Hd| | | | |]; subst.
      inversion Hc as [| | | | | | | |? ? ? He Hf]; subst.
      apply Matches_Literal in He as ->.
      destruct (Matches_Star_r _ _ Hf eq_refl) as [n ->].
      inversion Hd as [| |c ? Hc'| | | | | |]; subst.
      rewrite inClass_digit in Hc'. apply bool_decide_eq_true in Hc'.
      exists (S n), c. split; [lia|]. split; [done|]. reflexivity.
  - intros [(d & Hd & ->)|[(c & Hc & ->)|(n & d & Hn & Hd & ->)]].
    + apply regexp.MAltL, regexp.MAltL. constructor; [constructor|].
      constructor. rewrite inClass_digit. by apply bool_decide_eq_true.
    + apply regexp.MAltL, regexp.MAltR. constructor; [constructor|].
      constructor. rewrite inClass_bracket_digit. by apply bool_decide_eq_true.
    + apply regexp.MAltR. constructor; [constructor|].
      constructor.
      * destruct n as [|n]; [lia|].
        change (rs (S n)) with ("r" +:+ rs n).
        constructor; [constructor|apply Star_r_Matches].
      * constructor. rewrite inClass_digit. by apply bool_decide_eq_true.
Qed.

(** The pattern is not anchored: a name is allowed when one of the three
    shapes occurs in it. *)
Lemma allowedServerName_spec name :
  regexp.MatchString allowedServerName name = true <->
  exists mid, allowedShape mid /\ occursIn mid name.
Proof.
  rewrite MatchString_spec. unfold occursIn. split.
  - intros (pre & mid & post & -> & H). exists mid.
    split; [by apply allowedServerName_language|eauto].
  - intros (mid & H & pre & post & ->). exists pre, mid, post.
    split; [done|by apply allowedServerName_language].
Qed.

(** C10. The allowed-name check is an unanchored match of
    [proxy[0-9]|master[[0-9]|worker+[0-9]]: a name is accepted if and only if
    it contains, anywhere, [proxy] followed by a digit, or [master] followed
    by an opening bracket or a digit, or [worke] followed by one or more [r]
    and then a digit.  So [myproxy1backup] and [master[] are accepted, and
    [worker] followed by one character that is not a digit is rejected. *)
Theorem C10_allowed_name_unanchored_match :
  allowedServerName_String = "proxy[0-9]|master[[0-9]|worker+[0-9]" /\
  (forall name,
      regexp.MatchString allowedServerName name = true <->
      exists mid, allowedShape mid /\ occursIn mid name) /\
  regexp.MatchString allowedServerName "myproxy1backup" = true /\
  regexp.MatchString allowedServerName "master[" = true /\
  (forall c, ~ isDecimalDigit c ->
             regexp.MatchString allowedServerName ("worker" +:+ String c "") = false).
Proof.
  split; [reflexivity|]. split; [apply allowedServerName_spec|].
  split; [reflexivity|]. split; [reflexivity|].
  intros c Hc.
  assert (bool_decide (isDecimalDigit c) = false) as Hb
    by (by apply bool_decide_eq_false).
  clear Hc. revert Hb.
  destruct c as [b0 b1 b2 b3 b4 b5 b6 b7].
  destruct b0, b1, b2, b3, b4, b5, b6, b7; vm_compute; congruence.
Qed.

Lemma C10_allowed_name_witness :
  regexp.MatchString allowedServerName "workerX" = false.
Proof.
  apply (proj2 (proj2 (proj2 (proj2 C10_allowed_name_unanchored_match))) "X"%char).
  unfold isDecimalDigit, decimalDigits. intros H.
  repeat (apply elem_of_cons in H as [H|H]; [discriminate H|]).
  by apply elem_of_nil in H.
Defined.

(** ** [getServer] *)

Ltac run_io :=
  unfold mbind, IO_bind, bind, mret, IO_ret, ret, request, l_Printf, os_Exit,
    panic, fmt_Println; simpl.

Lemma getScWServerByName_run scwApi name p :
  getScWServerByName scwApi name p =
  match GetServerID scwApi name with
  | Err err =>
      (Exit 1,
       {| Stdout := Stdout p;
          Stderr := Stderr p +:+
            (let msg := MSG_PREFIX +:+ " failed to get server id with name: " +:+ err in
             if endsWithNewline msg then msg else msg +:+ newline);
          Calls := Calls p ++ [CallGetServerID name] |})
  | Ok serverId =>
      match GetServer scwApi serverId with
      | Err err =>
          (Exit 1,
           {| Stdout := Stdout p;
              Stderr := Stderr p +:+
                (let msg := MSG_PREFIX +:+ " failed to get server with id: " +:+ err in
                 if endsWithNewline msg then msg else msg +:+ newline);
              Calls := (Calls p ++ [CallGetServerID name]) ++ [CallGetServer serverId] |})
      | Ok server =>
          (Done server,
           {| Stdout := Stdout p;
              Stderr := Stderr p;
              Calls := (Calls p ++ [CallGetServerID name]) ++ [CallGetServer serverId] |})
      end
  end.
Proof.
  unfold getScWServerByName. run_io.
  destruct (GetServerID scwApi name) as [serverId|err]; simpl; [|done].
  destruct (GetServer scwApi serverId) as [server|err]; simpl; done.
Qed.

Lemma resolves_fun scwApi name s1 s2 :
  resolves scwApi name s1 -> resolves scwApi name s2 -> s1 = s2.
Proof. intros (i1 & E1 & F1) (i2 & E2 & F2). congruence. Qed.

(** A request is never retracted, and a successful lookup writes nothing. *)
Lemma getScWServerByName_Done scwApi name p server p' :
  getScWServerByName scwApi name p = (Done server, p') ->
  resolves scwApi name server /\ Stdout p' = Stdout p /\ Stderr p' = Stderr p.
Proof.
  rewrite getScWServerByName_run. unfold resolves.
  destruct (GetServerID scwApi name) as [serverId|err] eqn:E1; [|done].
  destruct (GetServer scwApi serverId) as [srv|err] eqn:E2; [|done].
  intros [= <- <-]. eauto.
Qed.

Lemma getScWServerByName_resolves scwApi name p server :
  resolves scwApi name server ->
  exists p', getScWServerByName scwApi name p = (Done server, p') /\
             Stdout p' = Stdout p /\ Stderr p' = Stderr p.
Proof.
  intros (serverId & E1 & E2). rewrite getScWServerByName_run, E1, E2. eauto.
Qed.

Lemma genericVars_args : genericVars !!! "ansible_ssh_common_args" = common_proxy_conf.
Proof. unfold genericVars. by rewrite lookup_total_insert_eq. Qed.

(** A name refused by the pattern ends the run at once. *)
Lemma getServer_refused scwApi name p :
  regexp.MatchString allowedServerName name = false ->
  getServer scwApi name p =
  (Exit 1,
   {| Stdout := Stdout p; Stderr := Stderr p +:+ invalidNameLine; Calls := Calls p |}).
Proof. intros E. unfold getServer. rewrite E. reflexivity. Qed.

(** What a run of [getServer] that returns has gone through. *)
Lemma getServer_Done scwApi name p vars p' :
  getServer scwApi name p = (Done vars, p') ->
  regexp.MatchString allowedServerName name = true /\
  exists serverProxy0 server,
    resolves scwApi "proxy0" serverProxy0 /\
    resolves scwApi name server /\
    vars = build_vpn_ip server (build_ansible_host server (branchVars name serverProxy0)) /\
    Stdout p' = Stdout p /\ Stderr p' = Stderr p.
Proof.
  unfold getServer.
  destruct (regexp.MatchString allowedServerName name) eqn:E; [|done].
  run_io. fold genericVars.
  destruct (getScWServerByName scwApi "proxy0" p) as [[sp0| |] p0] eqn:E0; [|done..].
  apply getScWServerByName_Done in E0 as (R0 & Ho0 & He0).
  unfold branchVars. rewrite genericVars_args.
  destruct (String.eqb_spec name "proxy0") as [->|Hne]; simpl.
  - intros [= <- <-]. split; [done|]. exists sp0, sp0. eauto.
  - destruct (getScWServerByName scwApi name p0) as [[srv| |] p1] eqn:E1; [|done..].
    apply getScWServerByName_Done in E1 as (R1 & Ho1 & He1).
    intros [= <- <-]. split; [done|]. exists sp0, srv.
    repeat split; try done; congruence.
Qed.

(** [getServer] returns as soon as the name is allowed and the directory
    resolves the gateway and the target. *)
Lemma getServer_returns scwApi name p serverProxy0 server :
  regexp.MatchString allowedServerName name = true ->
  resolves scwApi "proxy0" serverProxy0 ->
  resolves scwApi name server ->
  exists p',
    getServer scwApi name p =
    (Done (build_vpn_ip server (build_ansible_host server (branchVars name serverProxy0))), p').
Proof.
  intros E R0 R1. unfold getServer. rewrite E. run_io. fold genericVars.
  destruct (getScWServerByName_resolves scwApi "proxy0" p _ R0) as (p0 & -> & _).
  unfold branchVars. rewrite genericVars_args.
  destruct (String.eqb_spec name "proxy0") as [->|Hne]; simpl.
  - rewrite (resolves_fun _ _ _ _ R1 R0). eauto.
  - destruct (getScWServerByName_resolves scwApi name p0 _ R1) as (p1 & -> & _).
    eauto.
Qed.

(** ** Packages [strings] and [strconv] *)

Lemma HasPrefix_spec s prefix :
  strings.HasPrefix s prefix = true <-> exists post, s = prefix +:+ post.
Proof.
  revert s. induction prefix as [|a prefix IH]; intros s.
  - destruct s; simpl; split; eauto.
  - destruct s as [|c s]; simpl.
    + split; [done|]. intros [post E]. by rewrite app_String in E.
    + rewrite andb_true_iff, IH. split.
      * intros [Hc [post ->]]. apply Ascii.eqb_eq in Hc as ->. by exists post.
      * intros [post E]. rewrite app_String in E. injection E as -> ->.
        split; [apply Ascii.eqb_refl|eauto].
Qed.

Lemma Contains_spec s substr :
  strings.Contains s substr = true <-> occursIn substr s.
Proof.
  unfold occursIn. induction s as [|c s IH]; cbn [strings.Contains].
  - rewrite orb_false_r, HasPrefix_spec. split.
    + intros [post E]. by exists "", post.
    + intros (pre & post & E). symmetry in E.
      apply app_eq_empty in E as [-> E]. by exists post.
  - rewrite orb_true_iff, HasPrefix_spec, IH. split.
    + intros [[post E]|(pre & post & ->)].
      * by exists "", post.
      * by exists (String c pre), post.
    + intros (pre & post & E). destruct pre as [|a pre].
      * left. by exists post.
      * rewrite app_String in E. injection E as -> ->. right. eauto.
Qed.

Lemma Contains_false s substr :
  strings.Contains s substr = false <-> ~ occursIn substr s.
Proof. rewrite <- Contains_spec. by destruct (strings.Contains s substr). Qed.

Lemma occursIn_length substr s :
  occursIn substr s -> (String.length substr <= String.length s)%nat.
Proof. intros (pre & post & ->). rewrite !length_app_string. lia. Qed.

(** On one byte, [Atoi] succeeds exactly on the digits. *)
Lemma Atoi_one_byte_isDigit c :
  bool_decide (is_Some (strconv.Atoi (String c ""))) = strconv.isDigit c.
Proof.
  destruct c as [b0 b1 b2 b3 b4 b5 b6 b7].
  destruct b0, b1, b2, b3, b4, b5, b6, b7; vm_compute; reflexivity.
Qed.

Lemma Atoi_one_byte c :
  is_Some (strconv.Atoi (String c "")) <-> isDecimalDigit c.
Proof.
  rewrite <- (bool_decide_eq_true (isDecimalDigit c)), <- isDigit_decimal,
    <- Atoi_one_byte_isDigit.
  symmetry. apply bool_decide_eq_true.
Qed.

Lemma sliceFrom_last pre d :
  sliceFrom (pre +:+ String d "") (String.length pre) = String d "".
Proof. induction pre as [|a pre IH]; [done|]. by rewrite app_String. Qed.

Lemma last_exists s : s <> "" -> exists d, endsWith s d.
Proof.
  induction s as [|a s IH]; [done|]. intros _. destruct s as [|b s].
  - exists a, "". done.
  - destruct IH as (d & pre & E); [done|]. exists d, (String a pre).
    by rewrite app_String, <- E.
Qed.

(** ** The variables built by [getServer] *)

Lemma build_vpn_ip_other server m k :
  k <> "vpn_ip" -> build_vpn_ip server m !! k = m !! k.
Proof.
  intros Hk. unfold build_vpn_ip.
  repeat (case_match; try done); by rewrite lookup_insert_ne.
Qed.

Lemma build_ansible_host_other server m k :
  k <> "ansible_host" -> build_ansible_host server m !! k = m !! k.
Proof.
  intros Hk. unfold build_ansible_host. case_match; by rewrite lookup_insert_ne.
Qed.

Lemma build_ansible_host_lookup server m :
  build_ansible_host server m !! "ansible_host" =
  Some (if decide (IP (PublicAddress server) = "")
        then PrivateIP server else IP (PublicAddress server)).
Proof.
  unfold build_ansible_host.
  destruct (String.eqb_spec (IP (PublicAddress server)) "") as [E|E]; simpl;
    rewrite lookup_insert_eq; by case_decide.
Qed.

(** The address [vpn_ip]: set exactly when the name of the server ends
    with a digit and has a class, to the address of the class and digit. *)
Lemma build_vpn_ip_lookup server m v :
  m !! "vpn_ip" = None ->
  build_vpn_ip server m !! "vpn_ip" = Some v <->
  exists d octet,
    endsWith (Name server) d /\ isDecimalDigit d /\
    classOctet (Name server) octet /\
    v = "192.168.66." +:+ octet +:+ String d "".
Proof.
  intros Hm. unfold build_vpn_ip, classOctet. set (name := Name server). split.
  - destruct (Z.ltb_spec 1 (Z.of_nat (String.length name) - 1)) as [Hlen|Hlen];
      [|by rewrite Hm].
    destruct (last_exists name) as (d & pre & E); [by intros E; rewrite E in Hlen|].
    assert (Z.to_nat (Z.of_nat (String.length name) - 1) = String.length pre) as ->.
    { rewrite E, length_app_string. simpl. lia. }
    assert (sliceFrom name (String.length pre) = String d "") as ->
      by (rewrite E; apply sliceFrom_last).
    destruct (strconv.Atoi (String d "")) as [n|] eqn:Hd; [|by rewrite Hm].
    assert (isDecimalDigit d) by (apply Atoi_one_byte; by rewrite Hd).
    destruct (strings.Contains name "proxy") eqn:H1.
    { rewrite lookup_insert_eq. intros [= <-]. exists d, "1".
      apply Contains_spec in H1. repeat split; eauto. by exists pre. }
    apply Contains_false in H1.
    destruct (strings.Contains name "master") eqn:H2.
    { rewrite lookup_insert_eq. intros [= <-]. exists d, "2".
      apply Contains_spec in H2. repeat split; eauto. by exists pre. }
    apply Contains_false in H2.
    destruct (strings.Contains name "worker") eqn:H3; [|by rewrite Hm].
    rewrite lookup_insert_eq. intros [= <-]. exists d, "3".
    apply Contains_spec in H3. repeat split; eauto 10. by exists pre.
  - intros (d & octet & [pre E] & Hd & Hclass & ->).
    assert (5 <= String.length name)%nat as Hlen.
    { destruct Hclass as [[H _]|[(_ & H & _)|(_ & _ & H & _)]];
        apply occursIn_length in H; simpl in H; lia. }
    destruct (Z.ltb_spec 1 (Z.of_nat (String.length name) - 1)); [|lia].
    assert (Z.to_nat (Z.of_nat (String.length name) - 1) = String.length pre) as ->.
    { rewrite E, length_app_string. simpl. lia. }
    assert (sliceFrom name (String.length pre) = String d "") as ->
      by (rewrite E; apply sliceFrom_last).
    apply Atoi_one_byte in Hd as [n ->].
    destruct Hclass as [[H1 ->]|[(H1 & H2 & ->)|(H1 & H2 & H3 & ->)]].
    + apply Contains_spec in H1. rewrite H1. by rewrite lookup_insert_eq.
    + apply Contains_false in H1. apply Contains_spec in H2.
      rewrite H1, H2. by rewrite lookup_insert_eq.
    + apply Contains_false in H1. apply Contains_false in H2.
      apply Contains_spec in H3. rewrite H1, H2, H3. by rewrite lookup_insert_eq.
Qed.

Lemma genericVars_lookup k :
  genericVars !! k =
  if decide (k = "ansible_ssh_common_args") then Some common_proxy_conf
  else if decide (k = "ansible_user") then Some "root"
  else if decide (k = "ansible_python_interpreter") then Some "/usr/bin/python3"
  else None.
Proof.
  unfold genericVars. rewrite !lookup_insert, lookup_empty.
  repeat case_decide; congruence.
Qed.

Lemma branchVars_lookup name serverProxy0 k :
  branchVars name serverProxy0 !! k =
  if decide (name = "proxy0") then
    (if decide (k = "proxy_inet") then Some "True" else genericVars !! k)
  else
    (if decide (k = "ansible_ssh_common_args")
     then Some (common_proxy_conf +:+ proxy_command (IP (PublicAddress serverProxy0)))
     else genericVars !! k).
Proof.
  unfold branchVars. destruct (String.eqb_spec name "proxy0") as [E|E];
    rewrite lookup_insert; repeat case_decide; congruence.
Qed.

(** ** The claims on [getServer] *)


Lemma vars_no_vpn_ip_before name serverProxy0 server :
  build_ansible_host server (branchVars name serverProxy0) !! "vpn_ip" = None.
Proof.
  rewrite build_ansible_host_other, branchVars_lookup by done.
  rewrite genericVars_lookup. repeat case_decide; congruence.
Qed.

(** C2. [getServer] checks the name against the allowed-name pattern before
    it sends any request to the directory: when the name does not match, the
    run ends with exit status 1 after the line that reports the refused name,
    and the list of requests is the one it started with; a run that has sent
    a request has a name that matches. *)
Theorem C2_invalid_name_before_any_lookup scwApi name p :
  (regexp.MatchString allowedServerName name = false ->
   getServer scwApi name p =
   (Exit 1,
    {| Stdout := Stdout p; Stderr := Stderr p +:+ invalidNameLine; Calls := Calls p |})) /\
  (Calls (getServer scwApi name p).2 <> Calls p ->
   regexp.MatchString allowedServerName name = true).
Proof.
  split; [apply getServer_refused|].
  destruct (regexp.MatchString allowedServerName name) eqn:E; [done|].
  rewrite getServer_refused by done. simpl. done.
Qed.

Lemma C2_invalid_name_witness :
  getServer exampleApi "unclassified9" start =
  (Exit 1, {| Stdout := ""; Stderr := invalidNameLine; Calls := [] |}) /\
  regexp.MatchString allowedServerName "master3" = true.
Proof.
  split.
  - apply (proj1 (C2_invalid_name_before_any_lookup exampleApi "unclassified9" start)).
    reflexivity.
  - apply (proj2 (C2_invalid_name_before_any_lookup exampleApi "master3" start)).
    vm_compute. discriminate.
Defined.

(** C5. For every resolved target server, [ansible_host] is the public
    address of the server when that address is not empty, and its private
    address otherwise: it is always set, to exactly one of the two. *)
Theorem C5_ansible_host_public_else_private scwApi name p gateway server :
  regexp.MatchString allowedServerName name = true ->
  resolves scwApi "proxy0" gateway ->
  resolves scwApi name server ->
  exists vars p',
    getServer scwApi name p = (Done vars, p') /\
    vars !! "ansible_host" =
      Some (if decide (IP (PublicAddress server) = "")
            then PrivateIP server else IP (PublicAddress server)).
Proof.
  intros E R0 R1.
  destruct (getServer_returns scwApi name p _ _ E R0 R1) as [p' Hrun].
  eexists _, p'. split; [exact Hrun|].
  rewrite build_vpn_ip_other by done. apply build_ansible_host_lookup.
Qed.

Lemma C5_ansible_host_witness :
  exists vars p',
    getServer exampleApi "master3" start = (Done vars, p') /\
    vars !! "ansible_host" =
      Some (if decide (IP (PublicAddress exampleMaster3) = "")
            then PrivateIP exampleMaster3 else IP (PublicAddress exampleMaster3)).
Proof.
  apply (C5_ansible_host_public_else_private exampleApi "master3" start
           exampleProxy0 exampleMaster3).
  - reflexivity.
  - by exists "id-0".
  - by exists "id-1".
Defined.

(** Counting the occurrences of a substring across a concatenation. *)
Lemma HasPrefix_app_l s substr rest :
  strings.HasPrefix s substr = true -> strings.HasPrefix (s +:+ rest) substr = true.
Proof.
  rewrite !HasPrefix_spec. intros [post ->]. exists (post +:+ rest).
  by rewrite app_assoc_string.
Qed.

Lemma HasPrefix_app_departs s substr rest :
  strings.HasPrefix s substr = false ->
  strings.HasPrefix substr s = false ->
  strings.HasPrefix (s +:+ rest) substr = false.
Proof.
  revert substr. induction s as [|c s IH]; intros [|a substr]; simpl; try done.
  destruct (Ascii.eqb c a) eqn:Hca; simpl; [|done].
  apply Ascii.eqb_eq in Hca as ->. rewrite Ascii.eqb_refl. simpl. apply IH.
Qed.

Lemma occurrences_app substr s rest :
  selfContained substr s = true ->
  occurrences substr (s +:+ rest) = (occurrences substr s + occurrences substr rest)%nat.
Proof.
  induction s as [|c s IH]; intros Hs.
  - rewrite app_empty_l. destruct substr; [done|]. simpl. lia.
  - cbn [selfContained] in Hs. apply andb_true_iff in Hs as [Hhere Hs].
    rewrite app_String. cbn [occurrences]. rewrite <- app_String, (IH Hs).
    apply orb_true_iff in Hhere as [Hhere|Hhere].
    + by rewrite Hhere, (HasPrefix_app_l _ _ rest Hhere).
    + apply negb_true_iff in Hhere.
      destruct (strings.HasPrefix (String c s) substr) eqn:Hp.
      * by rewrite (HasPrefix_app_l _ _ rest Hp).
      * by rewrite (HasPrefix_app_departs _ _ rest Hp Hhere).
Qed.

Lemma occurrences_absent_first a substr s :
  ~ occursIn (String a "") s -> occurrences (String a substr) s = O.
Proof.
  induction s as [|c s IH]; intros Hno; [done|].
  cbn [occurrences strings.HasPrefix].
  destruct (Ascii.eqb_spec c a) as [->|Hne].
  - destruct Hno. by exists "", s.
  - simpl. apply IH. intros (pre & post & ->). apply Hno.
    by exists (String c pre), post.
Qed.

Lemma selfContained_absent_first a substr s :
  ~ occursIn (String a "") s -> selfContained (String a substr) s = true.
Proof.
  induction s as [|c s IH]; intros Hno; [done|].
  cbn [selfContained strings.HasPrefix].
  destruct (Ascii.eqb_spec c a) as [->|Hne].
  - destruct Hno. by exists "", s.
  - assert (Ascii.eqb a c = false) as -> by (apply Ascii.eqb_neq; congruence).
    simpl. apply IH. intros (pre & post & ->). apply Hno.
    by exists (String c pre), post.
Qed.

(** C6. For the gateway itself ([proxy0]), [getServer] sets [proxy_inet] to
    [True] and leaves [ansible_ssh_common_args] at its common value, in which
    [ProxyCommand] does not occur; for every other allowed name it does not
    set [proxy_inet] and appends to the common value one [ProxyCommand]
    clause, which is the clause of the specification for the public address
    of the server the directory resolves [proxy0] to: [ProxyCommand] then
    occurs exactly once in the value (the address holding no capital P). *)
Theorem C6_proxy_inet_and_ProxyCommand scwApi name p gateway server :
  regexp.MatchString allowedServerName name = true ->
  resolves scwApi "proxy0" gateway ->
  resolves scwApi name server ->
  exists vars p',
    getServer scwApi name p = (Done vars, p') /\
    strings.Contains common_proxy_conf "ProxyCommand" = false /\
    occurrences "ProxyCommand" common_proxy_conf = O /\
    (name = "proxy0" ->
     vars !! "proxy_inet" = Some "True" /\
     vars !! "ansible_ssh_common_args" = Some common_proxy_conf) /\
    (name <> "proxy0" ->
     vars !! "proxy_inet" = None /\
     vars !! "ansible_ssh_common_args" =
       Some (common_proxy_conf +:+ proxy_command (IP (PublicAddress gateway))) /\
     vars !! "ansible_ssh_common_args" =
       Some (common_proxy_conf +:+ " -o " +:+
             specifiedProxyCommand (IP (PublicAddress gateway))) /\
     (~ occursIn "P" (IP (PublicAddress gateway)) ->
      forall args,
        vars !! "ansible_ssh_common_args" = Some args ->
        occurrences "ProxyCommand" args = 1%nat)).
Proof.
  intros E R0 R1.
  destruct (getServer_returns scwApi name p _ _ E R0 R1) as [p' Hrun].
  eexists _, p'. split; [exact Hrun|]. split; [reflexivity|]. split; [reflexivity|].
  rewrite !build_vpn_ip_other, !build_ansible_host_other by done.
  rewrite !branchVars_lookup, !genericVars_lookup.
  split; intros Hname; repeat case_decide; try congruence; try done.
  split; [done|]. split; [done|].
  assert (common_proxy_conf +:+ proxy_command (IP (PublicAddress gateway))
          = (common_proxy_conf +:+ " -o ProxyCommand=" +:+ doubleQuote
               +:+ "ssh -W %h:%p -q root@")
            +:+ (IP (PublicAddress gateway)
                   +:+ " -i ~/.ssh/scaleway.pem" +:+ doubleQuote)) as Hshape
    by reflexivity.
  split.
  - rewrite Hshape. unfold specifiedProxyCommand. reflexivity.
  - intros Hno args [= <-]. rewrite Hshape.
    rewrite occurrences_app by reflexivity.
    rewrite (occurrences_app "ProxyCommand" (IP (PublicAddress gateway)))
      by (by apply (selfContained_absent_first "P" "roxyCommand")).
    rewrite (occurrences_absent_first "P" "roxyCommand" (IP (PublicAddress gateway)))
      by done.
    reflexivity.
Qed.

Lemma C6_proxy_inet_witness :
  exists vars p',
    getServer exampleApi "master3" start = (Done vars, p') /\
    strings.Contains common_proxy_conf "ProxyCommand" = false /\
    occurrences "ProxyCommand" common_proxy_conf = O /\
    ("master3" = "proxy0" ->
     vars !! "proxy_inet" = Some "True" /\
     vars !! "ansible_ssh_common_args" = Some common_proxy_conf) /\
    ("master3" <> "proxy0" ->
     vars !! "proxy_inet" = None /\
     vars !! "ansible_ssh_common_args" =
       Some (common_proxy_conf +:+ proxy_command (IP (PublicAddress exampleProxy0))) /\
     vars !! "ansible_ssh_common_args" =
       Some (common_proxy_conf +:+ " -o " +:+
             specifiedProxyCommand (IP (PublicAddress exampleProxy0))) /\
     (~ occursIn "P" (IP (PublicAddress exampleProxy0)) ->
      forall args,
        vars !! "ansible_ssh_common_args" = Some args ->
        occurrences "ProxyCommand" args = 1%nat)).
Proof.
  apply (C6_proxy_inet_and_ProxyCommand exampleApi "master3" start
           exampleProxy0 exampleMaster3).
  - reflexivity.
  - by exists "id-0".
  - by exists "id-1".
Defined.

(** C7, as stated, fails: for the gateway nothing is appended to the common
    value of [ansible_ssh_common_args], and that value is not the string of
    the specification (it starts with [-q -C]). *)
Lemma C7_common_args_counterexample :
  exists vars p',
    getServer exampleApi "proxy0" start = (Done vars, p') /\
    vars !! "ansible_ssh_common_args" = Some common_proxy_conf /\
    common_proxy_conf <> specified_common_args.
Proof.
  destruct (getServer_returns exampleApi "proxy0" start exampleProxy0 exampleProxy0)
    as [p' Hrun]; [reflexivity|by exists "id-0"..|].
  eexists _, p'. split; [exact Hrun|]. split; [|discriminate].
  rewrite build_vpn_ip_other, build_ansible_host_other by done.
  by rewrite branchVars_lookup, genericVars_lookup.
Qed.

(** C7, amended. For every allowed target name, the value of
    [ansible_ssh_common_args] before any [ProxyCommand] is appended is
    exactly [-q -C] followed by the five options of the specification; the
    returned value is that string for the gateway and that string followed by
    the [ProxyCommand] clause for every other name. *)
Theorem C7_common_args_baseline scwApi name p gateway server :
  regexp.MatchString allowedServerName name = true ->
  resolves scwApi "proxy0" gateway ->
  resolves scwApi name server ->
  exists vars p',
    getServer scwApi name p = (Done vars, p') /\
    common_proxy_conf = "-q -C " +:+ specified_common_args /\
    vars !! "ansible_ssh_common_args" =
      Some (common_proxy_conf +:+
              (if decide (name = "proxy0") then ""
               else proxy_command (IP (PublicAddress gateway)))).
Proof.
  intros E R0 R1.
  destruct (getServer_returns scwApi name p _ _ E R0 R1) as [p' Hrun].
  eexists _, p'. split; [exact Hrun|]. split; [reflexivity|].
  rewrite build_vpn_ip_other, build_ansible_host_other by done.
  rewrite branchVars_lookup, genericVars_lookup.
  repeat case_decide; try congruence. by rewrite app_empty_r.
Qed.

Lemma C7_common_args_witness :
  exists vars p',
    getServer exampleApi "proxy0" start = (Done vars, p') /\
    common_proxy_conf = "-q -C " +:+ specified_common_args /\
    vars !! "ansible_ssh_common_args" =
      Some (common_proxy_conf +:+
              (if decide ("proxy0" = "proxy0") then ""
               else proxy_command (IP (PublicAddress exampleProxy0)))).
Proof.
  apply (C7_common_args_baseline exampleApi "proxy0" start
           exampleProxy0 exampleProxy0).
  - reflexivity.
  - by exists "id-0".
  - by exists "id-0".
Defined.

(** C3. For every resolved target server, [vpn_ip] is set if and only if
    the name of the server has at least two characters, its final character
    is a decimal digit, and the name contains [proxy], [master] or [worker];
    the value is [192.168.66.] followed by the digit of the class (1 for
    [proxy], else 2 for [master], else 3 for [worker]) and by the final
    character.  So the server [proxy7] gets [192.168.66.17] and the server
    [master3] gets [192.168.66.23]. *)
Theorem C3_vpn_ip_derivation scwApi name p gateway server :
  regexp.MatchString allowedServerName name = true ->
  resolves scwApi "proxy0" gateway ->
  resolves scwApi name server ->
  exists vars p',
    getServer scwApi name p = (Done vars, p') /\
    (is_Some (vars !! "vpn_ip") <->
     (2 <= String.length (Name server))%nat /\
     (exists d, endsWith (Name server) d /\ isDecimalDigit d) /\
     (occursIn "proxy" (Name server) \/ occursIn "master" (Name server) \/
      occursIn "worker" (Name server))) /\
    (forall v,
        vars !! "vpn_ip" = Some v <->
        exists d octet,
          endsWith (Name server) d /\ isDecimalDigit d /\
          classOctet (Name server) octet /\
          v = "192.168.66." +:+ octet +:+ String d "") /\
    (Name server = "proxy7" -> vars !! "vpn_ip" = Some "192.168.66.17") /\
    (Name server = "master3" -> vars !! "vpn_ip" = Some "192.168.66.23").
Proof.
  intros E R0 R1.
  destruct (getServer_returns scwApi name p _ _ E R0 R1) as [p' Hrun].
  eexists _, p'. split; [exact Hrun|].
  pose proof (fun v => build_vpn_ip_lookup server _ v
                         (vars_no_vpn_ip_before name gateway server)) as Hvpn.
  split; [|split; [exact Hvpn|split]].
  - split.
    + intros [v Hv]. apply Hvpn in Hv as (d & octet & Hd & Hdigit & Hclass & _).
      assert (occursIn "proxy" (Name server) \/ occursIn "master" (Name server) \/
              occursIn "worker" (Name server)) as Hocc
        by (unfold classOctet in Hclass; tauto).
      split; [|eauto].
      destruct Hocc as [H|[H|H]]; apply occursIn_length in H; simpl in H; lia.
    + intros (_ & (d & Hd & Hdigit) & Hocc).
      assert (exists octet, classOctet (Name server) octet) as [octet Hclass].
      { unfold classOctet.
        destruct (strings.Contains (Name server) "proxy") eqn:H1;
          [apply Contains_spec in H1; eauto|apply Contains_false in H1].
        destruct (strings.Contains (Name server) "master") eqn:H2;
          [apply Contains_spec in H2; eauto 10|apply Contains_false in H2].
        exists "3". right; right. tauto. }
      eexists. apply Hvpn. eauto 10.
  - intros Hn. apply Hvpn. exists "7"%char, "1". rewrite Hn.
    split; [by exists "proxy"|]. split; [|split; [|done]].
    + by apply (bool_decide_unpack _).
    + left. split; [by exists "", "7"|done].
  - intros Hn. apply Hvpn. exists "3"%char, "2". rewrite Hn.
    split; [by exists "master"|]. split; [|split; [|done]].
    + by apply (bool_decide_unpack _).
    + right; left. repeat split; [|by exists "", "3"].
      apply Contains_false. reflexivity.
Qed.

Lemma C3_vpn_ip_witness :
  exists vars p',
    getServer exampleApi "master3" start = (Done vars, p') /\
    (is_Some (vars !! "vpn_ip") <->
     (2 <= String.length (Name exampleMaster3))%nat /\
     (exists d, endsWith (Name exampleMaster3) d /\ isDecimalDigit d) /\
     (occursIn "proxy" (Name exampleMaster3) \/
      occursIn "master" (Name exampleMaster3) \/
      occursIn "worker" (Name exampleMaster3))) /\
    (forall v,
        vars !! "vpn_ip" = Some v <->
        exists d octet,
          endsWith (Name exampleMaster3) d /\ isDecimalDigit d /\
          classOctet (Name exampleMaster3) octet /\
          v = "192.168.66." +:+ octet +:+ String d "") /\
    (Name exampleMaster3 = "proxy7" -> vars !! "vpn_ip" = Some "192.168.66.17") /\
    (Name exampleMaster3 = "master3" -> vars !! "vpn_ip" = Some "192.168.66.23").
Proof.
  apply (C3_vpn_ip_derivation exampleApi "master3" start exampleProxy0 exampleMaster3).
  - reflexivity.
  - by exists "id-0".
  - by exists "id-1".
Defined.

(** On the example account: [master3] has no public address and is reached
    through the gateway; [worker10] gets the address of [worker0], only its
    final character being used. *)
Example getServer_master3 :
  (fun vars : gmap string string =>
     (vars !! "ansible_host", vars !! "vpn_ip", vars !! "proxy_inet"))
    <$> returned (getServer exampleApi "master3" start)
  = Some (Some "10.0.0.23", Some "192.168.66.23", None) /\
  Calls (getServer exampleApi "master3" start).2
  = [CallGetServerID "proxy0"; CallGetServer "id-0";
     CallGetServerID "master3"; CallGetServer "id-1"].
Proof. split; vm_compute; reflexivity. Qed.

Example getServer_worker10 :
  (fun vars : gmap string string => (vars !! "ansible_host", vars !! "vpn_ip"))
    <$> returned (getServer exampleApi "worker10" start)
  = Some (Some "51.15.0.9", Some "192.168.66.30").
Proof. vm_compute. reflexivity. Qed.




(** ** [getServers] *)

Lemma extend_nil entry : extend entry [] = entry.
Proof. done. Qed.

Lemma extend_app entry l1 l2 : extend (extend entry l1) l2 = extend entry (l1 ++ l2).
Proof.
  destruct l1 as [|x1 l1]; [done|]. destruct l2 as [|x2 l2].
  - by rewrite app_nil_r.
  - simpl. by rewrite <- app_assoc.
Qed.

(** One step of the inner loop, read at the key [tag]. *)
Lemma getServers_tag_lookup name result t tag :
  getServers_tag name result t !! tag =
  extend (result !! tag) (if decide (t = tag) then [name] else []).
Proof.
  unfold getServers_tag. case_decide as Ht.
  - subst t. rewrite lookup_insert_eq. simpl.
    destruct (result !! tag) as [names|] eqn:E.
    + by rewrite (lookup_total_correct _ _ _ E).
    + by rewrite lookup_total_insert_eq.
  - rewrite lookup_insert_ne by done. simpl.
    destruct (result !! t); [done|]. by rewrite lookup_insert_ne.
Qed.

(** The inner loop over the tags of one server. *)
Lemma getServers_tags_lookup name tags tag : forall result,
  foldl (getServers_tag name) result tags !! tag =
  extend (result !! tag) ((fun _ => name) <$> filter (fun t => t = tag) tags).
Proof.
  induction tags as [|t tags IH]; intros result; [done|].
  simpl foldl. rewrite IH, getServers_tag_lookup, extend_app.
  rewrite filter_cons. by case_decide.
Qed.

Lemma getServers_server_lookup result server tag :
  getServers_server result server !! tag =
  extend (result !! tag) (contribution tag server).
Proof.
  unfold getServers_server, contribution.
  destruct (regexp.MatchString allowedServerName (Name server)); simpl; [|done].
  apply getServers_tags_lookup.
Qed.

(** The outer loop over the servers. *)
Lemma getServers_loop_lookup servers tag : forall result,
  foldl getServers_server result servers !! tag =
  extend (result !! tag) (tagged tag servers).
Proof.
  unfold tagged. induction servers as [|server servers IH]; intros result; [done|].
  simpl foldl. rewrite IH, getServers_server_lookup, extend_app. done.
Qed.

Lemma elem_of_contribution name tag server :
  name ∈ contribution tag server <->
  regexp.MatchString allowedServerName (Name server) = true /\
  Name server = name /\ tag ∈ Tags server.
Proof.
  unfold contribution.
  destruct (regexp.MatchString allowedServerName (Name server)).
  - rewrite list_elem_of_fmap. split.
    + intros (t & -> & Ht). apply list_elem_of_filter in Ht as [-> Ht]. done.
    + intros (_ & <- & Ht). exists tag. split; [done|].
      by apply list_elem_of_filter.
  - split; [by intros ?%elem_of_nil|by intros [? _]].
Qed.

Lemma elem_of_tagged name tag servers :
  name ∈ tagged tag servers <->
  exists server,
    server ∈ servers /\
    regexp.MatchString allowedServerName (Name server) = true /\
    Name server = name /\ tag ∈ Tags server.
Proof.
  unfold tagged. rewrite list_elem_of_bind. split.
  - intros (server & H & Hs). apply elem_of_contribution in H. eauto.
  - intros (server & Hs & H). exists server. by rewrite elem_of_contribution.
Qed.

(** When a tag stands at most once among the tags of a server, the server
    adds its name at most once. *)
Lemma contribution_NoDup tag server :
  NoDup (Tags server) ->
  contribution tag server =
  if decide (regexp.MatchString allowedServerName (Name server) = true /\
             tag ∈ Tags server)
  then [Name server] else [].
Proof.
  intros Hnd. unfold contribution.
  destruct (regexp.MatchString allowedServerName (Name server));
    [|by rewrite decide_False by (by intros [? _])].
  assert (filter (fun t => t = tag) (Tags server) =
          if decide (tag ∈ Tags server) then [tag] else []) as ->.
  { induction Hnd as [|t tags Ht _ IH]; [done|].
    rewrite filter_cons, IH.
    repeat case_decide; subst; try done; rewrite ?elem_of_cons in *;
      intuition congruence. }
  repeat case_decide; try tauto; done.
Qed.

Lemma tagged_NoDup tag servers :
  (forall server, server ∈ servers -> NoDup (Tags server)) ->
  tagged tag servers =
  Name <$> filter (fun server =>
                     regexp.MatchString allowedServerName (Name server) = true /\
                     tag ∈ Tags server) servers.
Proof.
  unfold tagged. induction servers as [|server servers IH]; intros Hnd; [done|].
  rewrite bind_cons, filter_cons, IH, contribution_NoDup.
  - by case_decide.
  - apply Hnd. left.
  - intros s Hs. apply Hnd. by right.
Qed.

Lemma getServers_run scwApi servers p :
  GetServers scwApi true 0 = Ok servers ->
  getServers scwApi p =
  (Done (foldl getServers_server ∅ servers),
   {| Stdout := Stdout p; Stderr := Stderr p;
      Calls := Calls p ++ [CallGetServers true 0] |}).
Proof. intros E. unfold getServers. run_io. by rewrite E. Qed.

Lemma getServers_loop_total servers tag :
  foldl getServers_server ∅ servers !!! tag = tagged tag servers.
Proof.
  rewrite lookup_total_alt, getServers_loop_lookup, lookup_empty.
  by destruct (tagged tag servers).
Qed.

(** C8. [getServers] puts the name of each server whose name is allowed in
    the list of every tag of that server, and in the list of no other tag; a
    server without tag adds no key and stands in no list; a server whose
    name is not allowed is skipped; in the list of a tag the names stand in
    the order in which the directory returned the servers. *)
Theorem C8_group_by_tag scwApi servers p :
  GetServers scwApi true 0 = Ok servers ->
  exists result p',
    getServers scwApi p = (Done result, p') /\
    (forall server tag,
        server ∈ servers ->
        regexp.MatchString allowedServerName (Name server) = true ->
        tag ∈ Tags server ->
        Name server ∈ result !!! tag) /\
    (forall tag name,
        name ∈ result !!! tag ->
        exists server,
          server ∈ servers /\
          regexp.MatchString allowedServerName (Name server) = true /\
          Name server = name /\ tag ∈ Tags server) /\
    (forall tag,
        is_Some (result !! tag) <->
        exists server,
          server ∈ servers /\
          regexp.MatchString allowedServerName (Name server) = true /\
          tag ∈ Tags server) /\
    (forall tag, result !! tag = extend None (tagged tag servers)) /\
    ((forall server, server ∈ servers -> NoDup (Tags server)) ->
     forall tag,
       result !!! tag =
       Name <$> filter (fun server =>
                          regexp.MatchString allowedServerName (Name server) = true /\
                          tag ∈ Tags server) servers).
Proof.
  intros E. eexists _, _. split; [by apply getServers_run|].
  split; [|split; [|split; [|split]]].
  - intros server tag Hs Ha Ht. rewrite getServers_loop_total.
    apply elem_of_tagged. eauto.
  - intros tag name. rewrite getServers_loop_total. apply elem_of_tagged.
  - intros tag. rewrite getServers_loop_lookup, lookup_empty. split.
    + intros Hsome. destruct (tagged tag servers) as [|name names] eqn:Ht.
      { by destruct Hsome. }
      assert (name ∈ tagged tag servers) as Hin by (rewrite Ht; left).
      apply elem_of_tagged in Hin as (server & ? & ? & _ & ?). eauto.
    + intros (server & Hs & Ha & Ht).
      assert (Name server ∈ tagged tag servers) as Hin
        by (apply elem_of_tagged; eauto).
      destruct (tagged tag servers); [by apply elem_of_nil in Hin|]. by eexists.
  - intros tag. by rewrite getServers_loop_lookup, lookup_empty.
  - intros Hnd tag. rewrite getServers_loop_total. by apply tagged_NoDup.
Qed.

Lemma C8_group_by_tag_witness :
  exists result p',
    getServers exampleApi start = (Done result, p') /\
    (forall server tag,
        server ∈ exampleServers ->
        regexp.MatchString allowedServerName (Name server) = true ->
        tag ∈ Tags server ->
        Name server ∈ result !!! tag) /\
    (forall tag name,
        name ∈ result !!! tag ->
        exists server,
          server ∈ exampleServers /\
          regexp.MatchString allowedServerName (Name server) = true /\
          Name server = name /\ tag ∈ Tags server) /\
    (forall tag,
        is_Some (result !! tag) <->
        exists server,
          server ∈ exampleServers /\
          regexp.MatchString allowedServerName (Name server) = true /\
          tag ∈ Tags server) /\
    (forall tag, result !! tag = extend None (tagged tag exampleServers)) /\
    ((forall server, server ∈ exampleServers -> NoDup (Tags server)) ->
     forall tag,
       result !!! tag =
       Name <$> filter (fun server =>
                          regexp.MatchString allowedServerName (Name server) = true /\
                          tag ∈ Tags server) exampleServers).
Proof.
  apply (C8_group_by_tag exampleApi exampleServers start). reflexivity.
Defined.

(** On the example account: under [all] the four allowed servers that carry
    the tag, in the order of the directory; [unclassified9] is skipped and
    [proxy7], which has no tag, is nowhere. *)
Example getServers_example :
  (getServers exampleApi start).1 =
  Done (<["all" := ["proxy0"; "master3"; "worker10"; "proxy1backup"] ]>
          (<["gateway" := ["proxy0"] ]>
             (<["kube" := ["master3"] ]>
                (<["backup" := ["proxy1backup"] ]> ∅))) : gmap string (list string)).
Proof. vm_compute. reflexivity. Qed.

(** ** [encoding/json]: the order of the walk does not show *)

#[global] Instance keyLe_trans V : Transitive (@json.keyLe V).
Proof. intros e1 e2 e3. unfold json.keyLe. apply transitivity. Qed.

#[global] Instance keyLe_total V : Total (@json.keyLe V).
Proof. intros e1 e2. unfold json.keyLe. apply total, _. Qed.

Lemma merge_sort_walk {V} (m : gmap string V) walk1 walk2 :
  walk1 ≡ₚ map_to_list m -> walk2 ≡ₚ map_to_list m ->
  merge_sort json.keyLe walk1 = merge_sort json.keyLe walk2.
Proof.
  intros H1 H2. apply (Sorted_unique_strong json.keyLe).
  - intros [k1 v1] [k2 v2] Hin1 Hin2 Hle1 Hle2.
    rewrite merge_sort_Permutation, H1 in Hin1.
    rewrite merge_sort_Permutation, H2 in Hin2.
    apply elem_of_map_to_list in Hin1, Hin2.
    assert (k1 = k2) as -> by (by apply (anti_symm String.le)).
    congruence.
  - apply Sorted_merge_sort, _.
  - apply Sorted_merge_sort, _.
  - by rewrite !merge_sort_Permutation, H1, H2.
Qed.

Lemma encodeMap_walk {V} encodeString (encodeValue : V -> string)
    (m : gmap string V) walk1 walk2 :
  walk1 ≡ₚ map_to_list m -> walk2 ≡ₚ map_to_list m ->
  json.encodeMap encodeString encodeValue walk1
  = json.encodeMap encodeString encodeValue walk2.
Proof.
  intros H1 H2. unfold json.encodeMap. by rewrite (merge_sort_walk m walk1 walk2).
Qed.

(** C9. The [--list] operation is deterministic: for a fixed answer of the
    directory, two runs, whatever the order in which each of them walks the
    map, write the same bytes; the serialization of the grouping of any
    server list is the same in both, and so is the whole run of [main]. *)
Theorem C9_list_output_deterministic TrimSpace encodeString
    (walk1 walk2 : forall V : Type, gmap string V -> list (string * V)) :
  (forall V (m : gmap string V), walk1 V m ≡ₚ map_to_list m) ->
  (forall V (m : gmap string V), walk2 V m ≡ₚ map_to_list m) ->
  (forall servers,
      json.encodeMap encodeString (json.encodeStrings encodeString)
        (walk1 _ (foldl getServers_server ∅ servers))
      = json.encodeMap encodeString (json.encodeStrings encodeString)
          (walk2 _ (foldl getServers_server ∅ servers))) /\
  (forall w p,
      main TrimSpace encodeString walk1 w p = main TrimSpace encodeString walk2 w p).
Proof.
  intros H1 H2. split.
  - intros servers. by eapply encodeMap_walk.
  - intros w p. unfold main. run_io.
    destruct (initScwApi TrimSpace w p) as [[scwApi| |] p0]; [|done..].
    destruct (String.eqb _ "--list").
    + destruct (getServers scwApi p0) as [[servers| |] p1]; [|done..].
      by rewrite (encodeMap_walk _ _ servers (walk1 _ servers) (walk2 _ servers)).
    + destruct (String.eqb _ "--host"); [|done].
      destruct (Z.of_nat (length (os_Args w)) <? 2); [done|]. simpl.
      destruct (os_Args w !! 2%nat) as [hostname|]; [|done].
      destruct (getServer scwApi hostname p0) as [[vars| |] p1]; [|done..].
      by rewrite (encodeMap_walk _ _ vars (walk1 _ vars) (walk2 _ vars)).
Qed.

Lemma C9_list_output_witness :
  (forall servers,
      json.encodeMap plainEncodeString (json.encodeStrings plainEncodeString)
        (walkForward _ (foldl getServers_server ∅ servers))
      = json.encodeMap plainEncodeString (json.encodeStrings plainEncodeString)
          (walkBackward _ (foldl getServers_server ∅ servers))) /\
  (forall w p,
      main asciiTrimSpace plainEncodeString walkForward w p
      = main asciiTrimSpace plainEncodeString walkBackward w p).
Proof.
  apply (C9_list_output_deterministic asciiTrimSpace plainEncodeString
           walkForward walkBackward).
  - intros V m. reflexivity.
  - intros V m. apply reverse_Permutation.
Defined.

(** ** [main] *)

(** [initScwApi] writes nothing when it succeeds; when it fails the run ends
    with exit status 1 and nothing on standard output.  It never sends a
    request. *)
Lemma initScwApi_run TrimSpace w p :
  (exists scwApi, initScwApi TrimSpace w p = (Done scwApi, p)) \/
  (exists p', initScwApi TrimSpace w p = (Exit 1, p') /\
              Stdout p' = Stdout p /\ Calls p' = Calls p).
Proof.
  unfold initScwApi. run_io.
  destruct (String.eqb (TrimSpace (TrimSpace (os_Getenv w "SCALEWAY_ORGANIZATION"))) "");
    simpl; [right; eauto|].
  destruct (String.eqb (TrimSpace (TrimSpace (os_Getenv w "SCALEWAY_TOKEN"))) "");
    simpl; [right; eauto|].
  destruct (api_NewScalewayAPI w _ _) as [scwApi|err]; simpl; [|right; eauto].
  left. exists scwApi. by destruct p.
Qed.

Lemma initScwApi_configured TrimSpace w p scwApi :
  TrimSpace (TrimSpace (os_Getenv w "SCALEWAY_ORGANIZATION")) <> "" ->
  TrimSpace (TrimSpace (os_Getenv w "SCALEWAY_TOKEN")) <> "" ->
  api_NewScalewayAPI w (TrimSpace (os_Getenv w "SCALEWAY_ORGANIZATION"))
    (TrimSpace (os_Getenv w "SCALEWAY_TOKEN")) = Ok scwApi ->
  initScwApi TrimSpace w p = (Done scwApi, p).
Proof.
  intros Ho Ht Ha. unfold initScwApi. run_io.
  apply String.eqb_neq in Ho, Ht. rewrite Ho, Ht. simpl. rewrite Ha.
  by destruct p.
Qed.

(** C4, as stated, fails: started without argument on a machine where the
    credentials are set, the program does what [--list] does; it ends with
    exit status 0, having written the inventory on standard output and
    nothing on standard error. *)
Lemma C4_no_argument_counterexample :
  let run :=
    main asciiTrimSpace plainEncodeString walkForward
      (exampleWorld ["scaleway-dynamic-inventory"]) start in
  exitCode run.1 = 0 /\ Stdout run.2 <> "" /\ Stderr run.2 = "" /\
  run = main asciiTrimSpace plainEncodeString walkForward
          (exampleWorld ["scaleway-dynamic-inventory"; "--list"]) start.
Proof. vm_compute. repeat split; discriminate. Qed.

(** C4, amended. Started with a first argument that is neither [--list] nor
    [--host], the program ends with exit status 1, writes nothing on standard
    output and sends no request; when the credentials are set and the client
    is created, what it writes on standard error is the one-line usage
    message.  Started without argument, it does what it does with the single
    argument [--list]. *)
Theorem C4_usage_on_unknown_argument TrimSpace encodeString walk w p :
  (forall arg1,
      os_Args w !! 1%nat = Some arg1 -> arg1 <> "--list" -> arg1 <> "--host" ->
      let run := main TrimSpace encodeString walk w p in
      run.1 = Exit 1 /\ exitCode run.1 = 1 /\
      Stdout run.2 = Stdout p /\ Calls run.2 = Calls p /\
      (forall scwApi,
          TrimSpace (TrimSpace (os_Getenv w "SCALEWAY_ORGANIZATION")) <> "" ->
          TrimSpace (TrimSpace (os_Getenv w "SCALEWAY_TOKEN")) <> "" ->
          api_NewScalewayAPI w (TrimSpace (os_Getenv w "SCALEWAY_ORGANIZATION"))
            (TrimSpace (os_Getenv w "SCALEWAY_TOKEN")) = Ok scwApi ->
          Stderr run.2 = Stderr p +:+ usageLine)) /\
  isOneLine usageLine /\
  ((length (os_Args w) <= 1)%nat ->
   forall program,
     main TrimSpace encodeString walk w p
     = main TrimSpace encodeString walk (withArgs w [program; "--list"]) p).
Proof.
  split; [|split].
  - intros arg1 Harg Hlist Hhost run. subst run.
    assert ((1 <? Z.of_nat (length (os_Args w))) = true) as Hlen.
    { apply Z.ltb_lt. apply lookup_lt_Some in Harg. lia. }
    apply String.eqb_neq in Hlist, Hhost.
    assert (forall scwApi p0,
               initScwApi TrimSpace w p = (Done scwApi, p0) ->
               main TrimSpace encodeString walk w p =
               (Exit 1, {| Stdout := Stdout p0; Stderr := Stderr p0 +:+ usageLine;
                           Calls := Calls p0 |})) as Hmain.
    { intros scwApi p0 Hinit. unfold main. run_io.
      rewrite Hinit, Hlen, Harg. simpl. by rewrite Hlist, Hhost. }
    destruct (initScwApi_run TrimSpace w p) as [[scwApi Hinit]|(p' & Hinit & Ho & Hc)].
    + rewrite (Hmain _ _ Hinit). simpl. repeat split; try done.
    + assert (main TrimSpace encodeString walk w p = (Exit 1, p')) as ->.
      { unfold main. run_io. by rewrite Hinit. }
      simpl. repeat split; try done.
      intros scwApi Hno Hnt Hapi.
      rewrite (initScwApi_configured _ _ _ _ Hno Hnt Hapi) in Hinit. done.
  - exists "scw-inv: usage: [--host|--list]". split; [done|].
    apply Contains_false. reflexivity.
  - intros Hlen program.
    assert ((1 <? Z.of_nat (length (os_Args w))) = false) as Hlt
      by (apply Z.ltb_ge; lia).
    unfold main. run_io. rewrite Hlt.
    change (initScwApi TrimSpace (withArgs w [program; "--list"]) p)
      with (initScwApi TrimSpace w p).
    reflexivity.
Qed.

Lemma C4_usage_witness :
  let run :=
    main asciiTrimSpace plainEncodeString walkForward
      (exampleWorld ["scaleway-dynamic-inventory"; "--help"]) start in
  run.1 = Exit 1 /\ exitCode run.1 = 1 /\
  Stdout run.2 = "" /\ Calls run.2 = [] /\ Stderr run.2 = usageLine.
Proof.
  intros run.
  destruct (proj1 (C4_usage_on_unknown_argument asciiTrimSpace plainEncodeString
                     walkForward
                     (exampleWorld ["scaleway-dynamic-inventory"; "--help"]) start)
              "--help" eq_refl) as (H1 & H2 & H3 & H4 & H5); [discriminate..|].
  split; [exact H1|]. split; [exact H2|]. split; [exact H3|]. split; [exact H4|].
  apply (H5 exampleApi); [discriminate..|reflexivity].
Defined.

(** * Further properties of the program *)

(** ** [initScwApi]: the credentials come first *)



(** X2. When the organization is set and the token is blank once trimmed,
    the run ends with exit status 1 after the line that asks for
    [SCALEWAY_TOKEN], whatever the arguments. *)
Theorem X2_token_required TrimSpace encodeString walk w p :
  TrimSpace (organization TrimSpace w) <> "" ->
  TrimSpace (token TrimSpace w) = "" ->
  main TrimSpace encodeString walk w p =
  (Exit 1,
   complained p ("scw-inv: required SCALEWAY_TOKEN env var is not set" +:+ newline)).
Proof.
  intros Ho Ht. unfold main, initScwApi. run_io.
  unfold organization in Ho. unfold token in Ht.
  apply String.eqb_neq in Ho. rewrite Ho. simpl. rewrite Ht. reflexivity.
Qed.

Lemma X2_token_required_witness :
  main asciiTrimSpace plainEncodeString walkForward
    (mkWorld ["scaleway-dynamic-inventory"; "--host"; "proxy0"] "org-1" "" (Ok exampleApi))
    start =
  (Exit 1,
   complained start ("scw-inv: required SCALEWAY_TOKEN env var is not set" +:+ newline)).
Proof.
  apply (X2_token_required asciiTrimSpace plainEncodeString walkForward).
  - discriminate.
  - reflexivity.
Defined.

(** X3. When both credentials are set and the client cannot be created, the
    run ends with exit status 1 after the line that carries the error of the
    constructor, whatever the arguments; the constructor receives the
    trimmed credentials. *)
Theorem X3_client_creation_failure TrimSpace encodeString walk w p err :
  TrimSpace (organization TrimSpace w) <> "" ->
  TrimSpace (token TrimSpace w) <> "" ->
  api_NewScalewayAPI w (organization TrimSpace w) (token TrimSpace w) = Err err ->
  main TrimSpace encodeString walk w p =
  (Exit 1,
   complained p (logged ("scw-inv: failed to create scaleway API instance: " +:+ err))).
Proof.
  intros Ho Ht Ha. unfold main, initScwApi. run_io.
  unfold organization, token in *.
  apply String.eqb_neq in Ho, Ht. rewrite Ho, Ht. simpl. rewrite Ha. reflexivity.
Qed.

Lemma X3_client_creation_failure_witness :
  main asciiTrimSpace plainEncodeString walkForward
    (mkWorld ["scaleway-dynamic-inventory"] " org-1 " "secret" (Err "bad region"))
    start =
  (Exit 1,
   complained start
     (logged ("scw-inv: failed to create scaleway API instance: " +:+ "bad region"))).
Proof.
  apply (X3_client_creation_failure asciiTrimSpace plainEncodeString walkForward).
  - discriminate.
  - discriminate.
  - reflexivity.
Defined.

(** With the credentials set and the client created, [main] goes on with
    the arguments. *)
Lemma initScwApi_of_configured TrimSpace w p scwApi :
  configured TrimSpace w scwApi -> initScwApi TrimSpace w p = (Done scwApi, p).
Proof. intros (Ho & Ht & Ha). by apply initScwApi_configured. Qed.

(** ** [getScWServerByName], [getServers] and [getServer]: what a run may do *)





(** X5. In a run of [getServer] that returns, the requests are those for the
    gateway [proxy0], then those for the target; the gateway is looked up
    once, also when it is the target. *)
Theorem X5_getServer_requests scwApi name p gatewayId gateway targetId target :
  regexp.MatchString allowedServerName name = true ->
  GetServerID scwApi "proxy0" = Ok gatewayId ->
  GetServer scwApi gatewayId = Ok gateway ->
  GetServerID scwApi name = Ok targetId ->
  GetServer scwApi targetId = Ok target ->
  exists vars,
    getServer scwApi name p =
    (Done vars,
     requested p
       ([CallGetServerID "proxy0"; CallGetServer gatewayId] ++
        if String.eqb name "proxy0" then []
        else [CallGetServerID name; CallGetServer targetId])).
Proof.
  intros E E0 F0 E1 F1. unfold getServer. rewrite E. run_io.
  rewrite getScWServerByName_run, E0, F0.
  destruct (String.eqb name "proxy0"); simpl.
  - eexists. unfold requested. simpl. by rewrite <- app_assoc.
  - rewrite getScWServerByName_run, E1, F1. simpl.
    eexists. unfold requested. simpl. by rewrite <- !app_assoc.
Qed.

Lemma X5_getServer_requests_witness :
  exists vars,
    getServer exampleApi "proxy0" start =
    (Done vars,
     requested start
       ([CallGetServerID "proxy0"; CallGetServer "id-0"] ++
        if String.eqb "proxy0" "proxy0" then []
        else [CallGetServerID "proxy0"; CallGetServer "id-0"])).
Proof.
  apply (X5_getServer_requests exampleApi "proxy0" start "id-0" exampleProxy0
           "id-0" exampleProxy0); reflexivity.
Defined.

(** X6. No host can be reached when the directory does not find the
    gateway: for every allowed name, also one that the directory resolves,
    a failure of the lookup of [proxy0] ends the run with exit status 1 after
    the line that carries the error, and the target is never asked for. *)
Theorem X6_getServer_needs_gateway scwApi name p err :
  regexp.MatchString allowedServerName name = true ->
  GetServerID scwApi "proxy0" = Err err ->
  getServer scwApi name p =
  (Exit 1,
   complained (requested p [CallGetServerID "proxy0"])
     (logged ("scw-inv: failed to get server id with name: " +:+ err))).
Proof.
  intros E E0. unfold getServer. rewrite E. run_io.
  by rewrite getScWServerByName_run, E0.
Qed.

Lemma X6_getServer_needs_gateway_witness :
  getServer downApi "master3" start =
  (Exit 1,
   complained (requested start [CallGetServerID "proxy0"])
     (logged ("scw-inv: failed to get server id with name: " +:+ "connection refused"))).
Proof.
  apply (X6_getServer_needs_gateway downApi "master3" start); reflexivity.
Defined.

(** ** The variables of a host *)

(** X7. The mapping that [getServer] returns has the four keys
    [ansible_python_interpreter], [ansible_user], [ansible_ssh_common_args]
    and [ansible_host]; it has [proxy_inet] exactly when the target name is
    [proxy0]; and besides these it can only have [vpn_ip]. *)
Theorem X7_getServer_keys scwApi name p vars p' :
  getServer scwApi name p = (Done vars, p') ->
  (forall key, is_Some (vars !! key) -> key ∈ hostVarNames) /\
  (forall key,
      key ∈ ["ansible_python_interpreter"; "ansible_user";
             "ansible_ssh_common_args"; "ansible_host"] ->
      is_Some (vars !! key)) /\
  (is_Some (vars !! "proxy_inet") <-> name = "proxy0").
Proof.
  intros Hrun.
  apply getServer_Done in Hrun as (_ & gateway & server & _ & _ & -> & _).
  assert (forall key, key <> "vpn_ip" -> key <> "ansible_host" ->
            build_vpn_ip server
              (build_ansible_host server (branchVars name gateway)) !! key
            = branchVars name gateway !! key) as Hother.
  { intros key H1 H2. by rewrite build_vpn_ip_other, build_ansible_host_other. }
  split; [|split].
  - intros key Hkey. unfold hostVarNames.
    destruct (decide (key = "vpn_ip")) as [->|H1]; [set_unfold; tauto|].
    destruct (decide (key = "ansible_host")) as [->|H2]; [set_unfold; tauto|].
    rewrite Hother, branchVars_lookup, genericVars_lookup in Hkey by done.
    repeat case_decide; subst; try (set_unfold; tauto); by destruct Hkey.
  - intros key Hkey.
    destruct (decide (key = "ansible_host")) as [->|H2].
    { rewrite build_vpn_ip_other, build_ansible_host_lookup by done. eauto. }
    assert (key <> "vpn_ip") as H1 by (set_unfold; intros ->; intuition congruence).
    rewrite Hother, branchVars_lookup, genericVars_lookup by done.
    set_unfold. repeat case_decide; eauto; intuition congruence.
  - rewrite Hother, branchVars_lookup, genericVars_lookup by done.
    repeat case_decide; try congruence; split; try done; by intros [? ?].
Qed.

Lemma X7_getServer_keys_witness :
  exists vars p',
    getServer exampleApi "proxy0" start = (Done vars, p') /\
    (forall key, is_Some (vars !! key) -> key ∈ hostVarNames) /\
    (forall key,
        key ∈ ["ansible_python_interpreter"; "ansible_user";
               "ansible_ssh_common_args"; "ansible_host"] ->
        is_Some (vars !! key)) /\
    (is_Some (vars !! "proxy_inet") <-> "proxy0" = "proxy0").
Proof.
  destruct (getServer exampleApi "proxy0" start) as [[vars| |] p'] eqn:Hrun;
    [|vm_compute in Hrun; discriminate Hrun..].
  exists vars, p'. split; [reflexivity|].
  apply (X7_getServer_keys exampleApi "proxy0" start vars p' Hrun).
Defined.

(** X8. The address [vpn_ip], when it is set, is [192.168.66.] followed by
    exactly two characters, [1], [2] or [3] and then a decimal digit: it lies
    between 192.168.66.10 and 192.168.66.39, whatever the number in the name
    of the server. *)
Theorem X8_vpn_ip_range scwApi name p vars p' v :
  getServer scwApi name p = (Done vars, p') ->
  vars !! "vpn_ip" = Some v ->
  exists c d,
    c ∈ ["1"; "2"; "3"]%char /\ isDecimalDigit d /\
    v = "192.168.66." +:+ String c (String d "").
Proof.
  intros Hrun Hv.
  apply getServer_Done in Hrun as (_ & gateway & server & _ & _ & -> & _).
  apply build_vpn_ip_lookup in Hv as (d & octet & _ & Hd & Hclass & ->);
    [|apply vars_no_vpn_ip_before].
  destruct Hclass as [[_ ->]|[(_ & _ & ->)|(_ & _ & _ & ->)]].
  - exists "1"%char, d. split; [set_unfold; tauto|done].
  - exists "2"%char, d. split; [set_unfold; tauto|done].
  - exists "3"%char, d. split; [set_unfold; tauto|done].
Qed.

Lemma X8_vpn_ip_range_witness :
  exists c d,
    c ∈ ["1"; "2"; "3"]%char /\ isDecimalDigit d /\
    "192.168.66.30" = "192.168.66." +:+ String c (String d "").
Proof.
  destruct (getServer exampleApi "worker10" start) as [[vars| |] p'] eqn:Hrun;
    [|vm_compute in Hrun; discriminate Hrun..].
  apply (X8_vpn_ip_range exampleApi "worker10" start vars p' "192.168.66.30" Hrun).
  vm_compute in Hrun. injection Hrun as <- _. vm_compute. reflexivity.
Defined.



(** ** [main]: the two operations *)

(** The run of [--host <name>] once the client is created: further
    arguments are not read. *)
Lemma main_host TrimSpace encodeString walk w p scwApi name :
  configured TrimSpace w scwApi ->
  os_Args w !! 1%nat = Some "--host" ->
  os_Args w !! 2%nat = Some name ->
  main TrimSpace encodeString walk w p =
  match getServer scwApi name p with
  | (Done vars, p') =>
      (Done tt,
       printed p' (json.encodeMap encodeString encodeString (walk _ vars) +:+ newline))
  | (Exit code, p') => (Exit code, p')
  | (Panic msg, p') => (Panic msg, p')
  end.
Proof.
  intros Hc H1 H2. unfold main. run_io.
  rewrite (initScwApi_of_configured _ _ _ _ Hc).
  assert ((1 <? Z.of_nat (length (os_Args w))) = true) as ->
    by (apply Z.ltb_lt; apply lookup_lt_Some in H1; lia).
  assert ((Z.of_nat (length (os_Args w)) <? 2) = false) as ->
    by (apply Z.ltb_ge; apply lookup_lt_Some in H1; lia).
  rewrite H1, H2. simpl.
  destruct (getServer scwApi name p) as [[vars| |] p']; done.
Qed.

(** The run of the list operation once the client is created. *)
Lemma main_list TrimSpace encodeString walk w p scwApi :
  configured TrimSpace w scwApi ->
  asksList w ->
  main TrimSpace encodeString walk w p =
  match getServers scwApi p with
  | (Done servers, p') =>
      (Done tt,
       printed p'
         (json.encodeMap encodeString (json.encodeStrings encodeString)
            (walk _ servers) +:+ newline))
  | (Exit code, p') => (Exit code, p')
  | (Panic msg, p') => (Panic msg, p')
  end.
Proof.
  intros Hc Hl. unfold main. run_io.
  rewrite (initScwApi_of_configured _ _ _ _ Hc).
  assert ((if 1 <? Z.of_nat (length (os_Args w))
           then default "" (os_Args w !! 1%nat) else "--list") = "--list") as ->.
  { destruct Hl as [Hl|Hl].
    - by assert ((1 <? Z.of_nat (length (os_Args w))) = false) as ->
        by (apply Z.ltb_ge; lia).
    - rewrite Hl. by destruct (1 <? Z.of_nat (length (os_Args w))). }
  simpl. destruct (getServers scwApi p) as [[servers| |] p']; done.
Qed.

(** X10. [--host <name>] with a name that the pattern refuses ends with
    exit status 1 after the line that reports the refused name: nothing is
    written on standard output and no request is sent. *)
Theorem X10_host_refused_name TrimSpace encodeString walk w p scwApi name :
  configured TrimSpace w scwApi ->
  os_Args w !! 1%nat = Some "--host" ->
  os_Args w !! 2%nat = Some name ->
  regexp.MatchString allowedServerName name = false ->
  main TrimSpace encodeString walk w p = (Exit 1, complained p invalidNameLine).
Proof.
  intros Hc H1 H2 E.
  rewrite (main_host _ _ _ _ _ _ _ Hc H1 H2), getServer_refused by done. done.
Qed.

Lemma X10_host_refused_name_witness :
  main asciiTrimSpace plainEncodeString walkForward
    (exampleWorld ["scaleway-dynamic-inventory"; "--host"; "unclassified9"]) start
  = (Exit 1, complained start invalidNameLine).
Proof.
  apply (X10_host_refused_name asciiTrimSpace plainEncodeString walkForward
           _ start exampleApi "unclassified9").
  - split; [discriminate|]. split; [discriminate|reflexivity].
  - reflexivity.
  - reflexivity.
  - reflexivity.
Defined.

(** ** The text that [json.Marshal] writes *)

Lemma join_afterCommas x l : json.join "," (x :: l) = x +:+ afterCommas l.
Proof.
  revert x. induction l as [|y l IH]; intros x; [by rewrite app_empty_r|].
  change (json.join "," (x :: y :: l)) with (x +:+ "," +:+ json.join "," (y :: l)).
  by rewrite IH.
Qed.

Lemma join_commas l : json.join "," l = commas l.
Proof. destruct l as [|x l]; [done|]. apply join_afterCommas. Qed.

(** Once sorted by key, the walk of a map is the sorted list of its
    entries, whatever the order of the walk. *)
Lemma merge_sort_entries {V} (m : gmap string V) walk (entries : list (string * V)) :
  walk ≡ₚ map_to_list m ->
  Sorted json.keyLe entries ->
  NoDup entries.*1 ->
  (forall k v, (k, v) ∈ entries <-> m !! k = Some v) ->
  merge_sort json.keyLe walk = entries.
Proof.
  intros Hwalk Hsorted Hnodup Hentries.
  assert (forall e, e ∈ merge_sort json.keyLe walk <-> e ∈ entries) as Hsame.
  { intros [k v]. rewrite merge_sort_Permutation, Hwalk, elem_of_map_to_list.
    symmetry. apply Hentries. }
  apply (Sorted_unique_strong json.keyLe).
  - intros [k1 v1] [k2 v2] Hin1 Hin2 Hle1 Hle2.
    apply Hsame, Hentries in Hin1. apply Hentries in Hin2.
    assert (k1 = k2) as -> by (by apply (anti_symm String.le)).
    congruence.
  - apply Sorted_merge_sort, _.
  - done.
  - apply NoDup_Permutation; [| |done].
    + rewrite merge_sort_Permutation, Hwalk. apply NoDup_map_to_list.
    + by apply (NoDup_fmap_1 fst).
Qed.

Lemma encodeMap_entries {V} encodeString (encodeValue : V -> string)
    (m : gmap string V) walk (entries : list (string * V)) :
  walk ≡ₚ map_to_list m ->
  Sorted json.keyLe entries ->
  NoDup entries.*1 ->
  (forall k v, (k, v) ∈ entries <-> m !! k = Some v) ->
  json.encodeMap encodeString encodeValue walk
  = jsonObject ((fun e => (encodeString e.1, encodeValue e.2)) <$> entries).
Proof.
  intros Hwalk Hsorted Hnodup Hentries. unfold json.encodeMap, jsonObject.
  rewrite (merge_sort_entries m walk entries) by done.
  by rewrite join_commas, <- list_fmap_compose.
Qed.

(** A text without newline. *)
Lemma occursIn_char_app c a b :
  occursIn (String c "") (a +:+ b) ->
  occursIn (String c "") a \/ occursIn (String c "") b.
Proof.
  intros (pre & post & E). revert pre E.
  induction a as [|x a IH]; intros pre E.
  - right. by exists pre, post.
  - rewrite app_String in E. destruct pre as [|y pre].
    + injection E as -> _. left. by exists "", a.
    + rewrite app_String in E. injection E as -> E.
      destruct (IH pre E) as [(pre' & post' & ->)|H]; [left|by right].
      by exists (String y pre'), post'.
Qed.

Lemma noNewline_app a b :
  ~ occursIn newline a -> ~ occursIn newline b -> ~ occursIn newline (a +:+ b).
Proof. intros Ha Hb H. apply occursIn_char_app in H. tauto. Qed.

Lemma noNewline_literal s :
  strings.Contains s newline = false -> ~ occursIn newline s.
Proof. apply Contains_false. Qed.

Lemma noNewline_afterCommas l :
  Forall (fun x => ~ occursIn newline x) l -> ~ occursIn newline (afterCommas l).
Proof.
  induction 1 as [|x l Hx _ IH]; [by apply noNewline_literal|].
  cbn [afterCommas]. repeat apply noNewline_app; auto.
  by apply noNewline_literal.
Qed.

Lemma noNewline_commas l :
  Forall (fun x => ~ occursIn newline x) l -> ~ occursIn newline (commas l).
Proof.
  destruct 1 as [|x l Hx Hl]; [by apply noNewline_literal|].
  cbn [commas]. apply noNewline_app; [done|by apply noNewline_afterCommas].
Qed.

Lemma noNewline_jsonArray l :
  Forall (fun x => ~ occursIn newline x) l -> ~ occursIn newline (jsonArray l).
Proof.
  intros Hl. unfold jsonArray. repeat apply noNewline_app;
    [by apply noNewline_literal|by apply noNewline_commas|by apply noNewline_literal].
Qed.

Lemma noNewline_jsonObject members :
  Forall (fun member => ~ occursIn newline member.1 /\ ~ occursIn newline member.2)
    members ->
  ~ occursIn newline (jsonObject members).
Proof.
  intros Hm. unfold jsonObject. repeat apply noNewline_app;
    [by apply noNewline_literal| |by apply noNewline_literal].
  apply noNewline_commas, Forall_fmap. eapply Forall_impl; [exact Hm|].
  intros member [H1 H2]. simpl. repeat apply noNewline_app; auto.
  by apply noNewline_literal.
Qed.

Lemma escapeByte_noNewline c : strings.Contains (escapeByte c) newline = false.
Proof.
  destruct c as [b0 b1 b2 b3 b4 b5 b6 b7].
  destruct b0, b1, b2, b3, b4, b5, b6, b7; vm_compute; reflexivity.
Qed.

Lemma asciiEncodeString_noNewline s : ~ occursIn newline (asciiEncodeString s).
Proof.
  unfold asciiEncodeString. repeat apply noNewline_app;
    [by apply noNewline_literal| |by apply noNewline_literal].
  induction s as [|c s IH]; [by apply noNewline_literal|].
  cbn [escape]. apply noNewline_app; [|done].
  apply noNewline_literal, escapeByte_noNewline.
Qed.

(** The variables of a host, key by key. *)
Lemma hostVars_lookup name gateway server k :
  build_vpn_ip server (build_ansible_host server (branchVars name gateway)) !! k =
  if decide (k = "vpn_ip") then
    build_vpn_ip server (build_ansible_host server (branchVars name gateway)) !! "vpn_ip"
  else if decide (k = "ansible_host") then
    Some (if decide (IP (PublicAddress server) = "")
          then PrivateIP server else IP (PublicAddress server))
  else if decide (k = "proxy_inet") then
    (if decide (name = "proxy0") then Some "True" else None)
  else if decide (k = "ansible_ssh_common_args") then
    Some ("-q -C " +:+ specified_common_args +:+
            (if decide (name = "proxy0") then ""
             else " -o " +:+ specifiedProxyCommand (IP (PublicAddress gateway))))
  else if decide (k = "ansible_user") then Some "root"
  else if decide (k = "ansible_python_interpreter") then Some "/usr/bin/python3"
  else None.
Proof.
  destruct (decide (k = "vpn_ip")) as [->|H1]; [done|].
  rewrite build_vpn_ip_other by done.
  destruct (decide (k = "ansible_host")) as [->|H2];
    [apply build_ansible_host_lookup|].
  rewrite build_ansible_host_other, branchVars_lookup, genericVars_lookup by done.
  repeat case_decide; subst; try congruence; try done.
Qed.

Lemma hostEntries_spec name gateway server :
  let vars :=
    build_vpn_ip server (build_ansible_host server (branchVars name gateway)) in
  let entries :=
    hostEntries (bool_decide (name = "proxy0"))
      (if decide (IP (PublicAddress server) = "")
       then PrivateIP server else IP (PublicAddress server))
      ("-q -C " +:+ specified_common_args +:+
         (if decide (name = "proxy0") then ""
          else " -o " +:+ specifiedProxyCommand (IP (PublicAddress gateway))))
      (vars !! "vpn_ip") in
  Sorted json.keyLe entries /\ NoDup entries.*1 /\
  forall k v, (k, v) ∈ entries <-> vars !! k = Some v.
Proof.
  intros vars entries. subst entries. unfold hostEntries.
  assert (forall k, vars !! k = _) as Hlookup
    by (intros k; apply (hostVars_lookup name gateway server k)).
  fold vars in Hlookup.
  destruct (vars !! "vpn_ip") as [vpn|] eqn:Hvpn;
    destruct (decide (name = "proxy0")) as [Hname|Hname];
    rewrite ?(bool_decide_eq_true_2 _ Hname), ?(bool_decide_eq_false_2 _ Hname);
    (split; [by apply (bool_decide_unpack _)|]);
    (split; [by apply (bool_decide_unpack _)|]);
    intros k v; rewrite Hlookup; simpl; split.
  all: try (intros Hin;
            repeat (apply elem_of_cons in Hin as [[= -> ->]|Hin]; [done|]);
            by apply elem_of_nil in Hin).
  all: intros Hv; repeat case_decide; subst; try done;
    injection Hv as <-; rewrite !elem_of_cons; tauto.
Qed.

(** X11. [--host <name>] with an allowed name that the directory resolves
    ends with exit status 0, having written nothing on standard error and,
    on standard output, exactly one line: the JSON object of the variables
    of the host in the increasing order of their names, [ansible_host],
    [ansible_python_interpreter], [ansible_ssh_common_args], [ansible_user],
    then [proxy_inet] for the gateway and [vpn_ip] when the name of the
    server gives one, each string written by the encoder.  This holds
    whatever the order in which the run walks the map, for an encoder of
    strings that, like the one of [encoding/json], writes no newline;
    arguments after the name are not read. *)
Theorem X11_host_output TrimSpace encodeString
    (walk : forall V : Type, gmap string V -> list (string * V))
    w p scwApi name gateway server vpn :
  (forall V (m : gmap string V), walk V m ≡ₚ map_to_list m) ->
  (forall s, ~ occursIn newline (encodeString s)) ->
  configured TrimSpace w scwApi ->
  os_Args w !! 1%nat = Some "--host" ->
  os_Args w !! 2%nat = Some name ->
  regexp.MatchString allowedServerName name = true ->
  resolves scwApi "proxy0" gateway ->
  resolves scwApi name server ->
  (forall v,
      vpn = Some v <->
      exists d octet,
        endsWith (Name server) d /\ isDecimalDigit d /\
        classOctet (Name server) octet /\
        v = "192.168.66." +:+ octet +:+ String d "") ->
  let host :=
    if decide (IP (PublicAddress server) = "")
    then PrivateIP server else IP (PublicAddress server) in
  let args :=
    "-q -C " +:+ specified_common_args +:+
      (if decide (name = "proxy0") then ""
       else " -o " +:+ specifiedProxyCommand (IP (PublicAddress gateway))) in
  let body :=
    jsonObject
      ((fun e => (encodeString e.1, encodeString e.2))
         <$> hostEntries (bool_decide (name = "proxy0")) host args vpn) in
  let run := main TrimSpace encodeString walk w p in
  run.1 = Done tt /\ exitCode run.1 = 0 /\
  Stdout run.2 = Stdout p +:+ body +:+ newline /\
  ~ occursIn newline body /\
  Stderr run.2 = Stderr p.
Proof.
  intros Hwalk Henc Hc H1 H2 E R0 R1 Hvpn host args body run. subst run.
  assert (~ occursIn newline body) as Hline.
  { apply noNewline_jsonObject, Forall_fmap, Forall_forall. intros e _. simpl.
    split; apply Henc. }
  rewrite (main_host _ _ _ _ _ _ _ Hc H1 H2).
  destruct (getServer_returns scwApi name p _ _ E R0 R1) as [p' Hrun].
  pose proof (getServer_Done _ _ _ _ _ Hrun) as (_ & _ & _ & _ & _ & _ & Hout & Herr).
  rewrite Hrun. simpl. rewrite Hout, Herr.
  split; [done|]. split; [done|]. split; [|done]. do 2 f_equal.
  destruct (hostEntries_spec name gateway server) as (Hsorted & Hnodup & Hentries).
  assert (build_vpn_ip server (build_ansible_host server (branchVars name gateway))
            !! "vpn_ip" = vpn) as Hsame.
  { destruct (build_vpn_ip server
                (build_ansible_host server (branchVars name gateway)) !! "vpn_ip")
      as [v|] eqn:Hv.
    - symmetry. apply Hvpn.
      by apply (build_vpn_ip_lookup server _ v
                  (vars_no_vpn_ip_before name gateway server)).
    - destruct vpn as [v|]; [|done].
      assert (Some v = Some v) as Hv' by done. apply Hvpn in Hv'.
      apply (build_vpn_ip_lookup server _ v
               (vars_no_vpn_ip_before name gateway server)) in Hv'.
      congruence. }
  rewrite Hsame in Hsorted, Hnodup, Hentries.
  f_equal. by apply (encodeMap_entries encodeString encodeString _ _ _ (Hwalk _ _)).
Qed.

Lemma X11_host_output_witness :
  let host :=
    if decide (IP (PublicAddress exampleMaster3) = "")
    then PrivateIP exampleMaster3 else IP (PublicAddress exampleMaster3) in
  let args :=
    "-q -C " +:+ specified_common_args +:+
      (if decide ("master3" = "proxy0") then ""
       else " -o " +:+ specifiedProxyCommand (IP (PublicAddress exampleProxy0))) in
  let body :=
    jsonObject
      ((fun e => (asciiEncodeString e.1, asciiEncodeString e.2))
         <$> hostEntries (bool_decide ("master3" = "proxy0")) host args
               (Some "192.168.66.23")) in
  let run :=
    main asciiTrimSpace asciiEncodeString walkBackward
      (exampleWorld ["scaleway-dynamic-inventory"; "--host"; "master3"; "ignored"])
      start in
  run.1 = Done tt /\ exitCode run.1 = 0 /\
  Stdout run.2 = Stdout start +:+ body +:+ newline /\
  ~ occursIn newline body /\
  Stderr run.2 = Stderr start.
Proof.
  apply (X11_host_output asciiTrimSpace asciiEncodeString walkBackward
           _ start exampleApi "master3" exampleProxy0 exampleMaster3).
  - intros V m. apply reverse_Permutation.
  - apply asciiEncodeString_noNewline.
  - split; [discriminate|]. split; [discriminate|reflexivity].
  - reflexivity.
  - reflexivity.
  - reflexivity.
  - by exists "id-0".
  - by exists "id-1".
  - intros v.
    rewrite <- (build_vpn_ip_lookup exampleMaster3
                  (build_ansible_host exampleMaster3 (branchVars "master3" exampleProxy0)))
      by apply vars_no_vpn_ip_before.
    assert (build_vpn_ip exampleMaster3
              (build_ansible_host exampleMaster3 (branchVars "master3" exampleProxy0))
              !! "vpn_ip" = Some "192.168.66.23") as -> by (vm_compute; reflexivity).
    reflexivity.
Defined.

(** The line that [--host master3] writes for the example account. *)
Example host_master3_line :
  Stdout
    (main asciiTrimSpace asciiEncodeString walkBackward
       (exampleWorld ["scaleway-dynamic-inventory"; "--host"; "master3"]) start).2
  = jsonObject
      [(asciiEncodeString "ansible_host", asciiEncodeString "10.0.0.23");
       (asciiEncodeString "ansible_python_interpreter",
        asciiEncodeString "/usr/bin/python3");
       (asciiEncodeString "ansible_ssh_common_args",
        doubleQuote +:+
        "-q -C -o ControlMaster=auto -o ControlPersist=5m -o ForwardAgent=yes -o StrictHostKeyChecking=no -o UserKnownHostsFile=/dev/null -o ProxyCommand="
        +:+ backslash +:+ doubleQuote
        +:+ "ssh -W %h:%p -q root@51.15.0.1 -i ~/.ssh/scaleway.pem"
        +:+ backslash +:+ doubleQuote +:+ doubleQuote);
       (asciiEncodeString "ansible_user", asciiEncodeString "root");
       (asciiEncodeString "vpn_ip", asciiEncodeString "192.168.66.23")]
    +:+ newline.
Proof. vm_compute. reflexivity. Qed.

(** X12. [--host] without a name does not reach the line that asks for a
    hostname: the program reads the missing argument and panics (exit status
    2), having written nothing on standard output and sent no request. *)
Theorem X12_host_without_name_panics TrimSpace encodeString walk w p scwApi :
  configured TrimSpace w scwApi ->
  os_Args w !! 1%nat = Some "--host" ->
  os_Args w !! 2%nat = None ->
  let run := main TrimSpace encodeString walk w p in
  (exists msg, run.1 = Panic msg) /\ exitCode run.1 = 2 /\
  Stdout run.2 = Stdout p /\ Calls run.2 = Calls p.
Proof.
  intros Hc H1 H2 run. subst run. unfold main. run_io.
  rewrite (initScwApi_of_configured _ _ _ _ Hc).
  assert ((1 <? Z.of_nat (length (os_Args w))) = true) as ->
    by (apply Z.ltb_lt; apply lookup_lt_Some in H1; lia).
  assert ((Z.of_nat (length (os_Args w)) <? 2) = false) as ->
    by (apply Z.ltb_ge; apply lookup_lt_Some in H1; lia).
  rewrite H1, H2. simpl. eauto.
Qed.

Lemma X12_host_without_name_witness :
  let run :=
    main asciiTrimSpace plainEncodeString walkForward
      (exampleWorld ["scaleway-dynamic-inventory"; "--host"]) start in
  (exists msg, run.1 = Panic msg) /\ exitCode run.1 = 2 /\
  Stdout run.2 = Stdout start /\ Calls run.2 = Calls start.
Proof.
  apply (X12_host_without_name_panics asciiTrimSpace plainEncodeString walkForward
           _ start exampleApi).
  - split; [discriminate|]. split; [discriminate|reflexivity].
  - reflexivity.
  - reflexivity.
Defined.

(** X13. When the directory does not answer the request for the servers,
    the list operation ends with exit status 1 after the line that carries
    the error: one request has been sent and nothing is written on standard
    output. *)
Theorem X13_list_directory_failure TrimSpace encodeString walk w p scwApi err :
  configured TrimSpace w scwApi ->
  asksList w ->
  GetServers scwApi true 0 = Err err ->
  main TrimSpace encodeString walk w p =
  (Exit 1,
   complained (requested p [CallGetServers true 0])
     (logged ("scw-inv: failed to get servers: " +:+ err))).
Proof.
  intros Hc Hl E. rewrite (main_list _ _ _ _ _ _ Hc Hl).
  unfold getServers. run_io. by rewrite E.
Qed.

Lemma X13_list_directory_failure_witness :
  main asciiTrimSpace plainEncodeString walkForward
    (mkWorld ["scaleway-dynamic-inventory"] "org-1" "secret" (Ok downApi)) start
  = (Exit 1,
     complained (requested start [CallGetServers true 0])
       (logged ("scw-inv: failed to get servers: " +:+ "connection refused"))).
Proof.
  apply (X13_list_directory_failure asciiTrimSpace plainEncodeString walkForward
           _ start downApi).
  - split; [discriminate|]. split; [discriminate|reflexivity].
  - left. simpl. lia.
  - reflexivity.
Defined.


(** X14. When the directory answers the request for the servers, the list
    operation ends with exit status 0 after that one request, having written
    nothing on standard error and, on standard output, exactly one line: the
    JSON object whose members are the tags that have a name, in increasing
    byte order, each with the array of its names in the order of the
    directory.  This holds whatever the order in which the run walks the map,
    for an encoder of strings that, like the one of [encoding/json], writes no
    newline. *)
Theorem X14_list_output TrimSpace encodeString
    (walk : forall V : Type, gmap string V -> list (string * V))
    w p scwApi servers tags :
  (forall V (m : gmap string V), walk V m ≡ₚ map_to_list m) ->
  (forall s, ~ occursIn newline (encodeString s)) ->
  configured TrimSpace w scwApi ->
  asksList w ->
  GetServers scwApi true 0 = Ok servers ->
  Sorted String.le tags ->
  NoDup tags ->
  (forall tag, tag ∈ tags <-> tagged tag servers <> []) ->
  let body :=
    jsonObject
      ((fun tag => (encodeString tag, jsonArray (encodeString <$> tagged tag servers)))
         <$> tags) in
  main TrimSpace encodeString walk w p =
  (Done tt, printed (requested p [CallGetServers true 0]) (body +:+ newline)) /\
  ~ occursIn newline body.
Proof.
  intros Hwalk Henc Hc Hl E Hsorted Hnodup Htags body. split.
  - rewrite (main_list _ _ _ _ _ _ Hc Hl), (getServers_run _ _ _ E).
    rewrite (encodeMap_entries encodeString _ (foldl getServers_server ∅ servers) _
               ((fun tag => (tag, tagged tag servers)) <$> tags)).
    + unfold body. rewrite <- list_fmap_compose. do 4 f_equal.
      apply list_fmap_ext. intros _ tag _. simpl. f_equal.
      unfold json.encodeStrings, jsonArray. by rewrite join_commas.
    + apply Hwalk.
    + eapply Sorted_fmap; [|exact Hsorted]. intros x y Hxy. exact Hxy.
    + rewrite <- list_fmap_compose.
      assert (forall l : list string,
                 (fst ∘ (fun tag => (tag, tagged tag servers))) <$> l = l) as Hid
        by (induction l as [|x l IH]; [done|]; csimpl; by rewrite IH).
      by rewrite Hid.
    + intros k v. rewrite getServers_loop_lookup, lookup_empty, list_elem_of_fmap.
      split.
      * intros (tag & [= -> ->] & Hin). apply Htags in Hin.
        by destruct (tagged tag servers).
      * intros Hv. exists k. destruct (tagged k servers) eqn:Hk; [done|].
        injection Hv as <-. split; [done|]. apply Htags. by rewrite Hk.
  - apply noNewline_jsonObject, Forall_fmap, Forall_forall. intros tag _. simpl.
    split; [apply Henc|].
    apply noNewline_jsonArray, Forall_fmap, Forall_forall. intros name _. apply Henc.
Qed.

Lemma X14_list_output_witness :
  let body :=
    jsonObject
      ((fun tag =>
          (asciiEncodeString tag,
           jsonArray (asciiEncodeString <$> tagged tag exampleServers)))
         <$> ["all"; "backup"; "gateway"; "kube"]) in
  main asciiTrimSpace asciiEncodeString walkBackward
    (exampleWorld ["scaleway-dynamic-inventory"; "--list"; "ignored"]) start
  = (Done tt, printed (requested start [CallGetServers true 0]) (body +:+ newline)) /\
  ~ occursIn newline body.
Proof.
  apply (X14_list_output asciiTrimSpace asciiEncodeString walkBackward
           _ start exampleApi exampleServers).
  - intros V m. apply reverse_Permutation.
  - apply asciiEncodeString_noNewline.
  - split; [discriminate|]. split; [discriminate|reflexivity].
  - right. reflexivity.
  - reflexivity.
  - by apply (bool_decide_unpack _).
  - by apply (bool_decide_unpack _).
  - intros tag. split.
    + intros Hin.
      repeat (apply elem_of_cons in Hin as [->|Hin]; [by vm_compute|]).
      by apply elem_of_nil in Hin.
    + intros Hne. destruct (tagged tag exampleServers) as [|name names] eqn:Ht; [done|].
      assert (name ∈ tagged tag exampleServers) as Hin by (rewrite Ht; left).
      apply elem_of_tagged in Hin as (server & Hs & Ha & _ & Htag).
      repeat (apply elem_of_cons in Hs as [->|Hs];
              [simpl in Htag;
               repeat (apply elem_of_cons in Htag as [->|Htag];
                       [by apply (bool_decide_unpack _)|]);
               by apply elem_of_nil in Htag|]).
      by apply elem_of_nil in Hs.
Defined.

Lemma getServers_loop_empty servers :
  (forall server,
      server ∈ servers ->
      regexp.MatchString allowedServerName (Name server) = true ->
      Tags server = []) ->
  foldl getServers_server ∅ servers = ∅.
Proof.
  intros Hno. apply map_eq. intros tag.
  rewrite getServers_loop_lookup, !lookup_empty.
  destruct (tagged tag servers) as [|name names] eqn:Ht; [done|].
  assert (name ∈ tagged tag servers) as Hin by (rewrite Ht; left).
  apply elem_of_tagged in Hin as (server & Hs & Ha & _ & Htag).
  rewrite (Hno server Hs Ha) in Htag. by apply elem_of_nil in Htag.
Qed.

(** X15. When the account has nothing to list (no server, or none with an
    allowed name and a tag), the list operation still succeeds: it writes
    the line of the empty object and ends with exit status 0. *)
Theorem X15_list_nothing_to_list TrimSpace encodeString
    (walk : forall V : Type, gmap string V -> list (string * V)) w p scwApi servers :
  (forall V (m : gmap string V), walk V m ≡ₚ map_to_list m) ->
  configured TrimSpace w scwApi ->
  asksList w ->
  GetServers scwApi true 0 = Ok servers ->
  (forall server,
      server ∈ servers ->
      regexp.MatchString allowedServerName (Name server) = true ->
      Tags server = []) ->
  main TrimSpace encodeString walk w p =
  (Done tt, printed (requested p [CallGetServers true 0]) ("{}" +:+ newline)).
Proof.
  intros Hwalk Hc Hl E Hno.
  rewrite (main_list _ _ _ _ _ _ Hc Hl), (getServers_run _ _ _ E).
  rewrite (getServers_loop_empty _ Hno).
  pose proof (Hwalk _ (∅ : gmap string (list string))) as Hw.
  rewrite map_to_list_empty in Hw. apply Permutation_nil_r in Hw. by rewrite Hw.
Qed.

Lemma X15_list_nothing_witness :
  main asciiTrimSpace plainEncodeString walkBackward
    (mkWorld ["scaleway-dynamic-inventory"] "org-1" "secret" (Ok bareApi)) start
  = (Done tt, printed (requested start [CallGetServers true 0]) ("{}" +:+ newline)).
Proof.
  apply (X15_list_nothing_to_list asciiTrimSpace plainEncodeString walkBackward
           _ start bareApi [exampleUnclassified9; exampleProxy7]).
  - intros V m. apply reverse_Permutation.
  - split; [discriminate|]. split; [discriminate|reflexivity].
  - left. simpl. lia.
  - reflexivity.
  - intros server Hs Ha.
    apply elem_of_cons in Hs as [->|Hs]; [discriminate Ha|].
    apply elem_of_cons in Hs as [->|Hs]; [reflexivity|].
    by apply elem_of_nil in Hs.
Defined.

(** ** [main]: all or nothing *)

Lemma getServer_quiet scwApi name p :
  let run := getServer scwApi name p in
  Stdout run.2 = Stdout p /\ (run.1 = Exit 1 \/ exists vars, run.1 = Done vars).
Proof.
  unfold getServer.
  destruct (regexp.MatchString allowedServerName name); run_io; [|eauto].
  rewrite getScWServerByName_run.
  destruct (GetServerID scwApi "proxy0") as [id0|err]; simpl; [|eauto].
  destruct (GetServer scwApi id0) as [sp0|err]; simpl; [|eauto].
  destruct (String.eqb name "proxy0"); simpl; [eauto|].
  rewrite getScWServerByName_run.
  destruct (GetServerID scwApi name) as [id1|err]; simpl; [|eauto].
  destruct (GetServer scwApi id1) as [srv|err]; simpl; eauto.
Qed.

Lemma getServers_quiet scwApi p :
  let run := getServers scwApi p in
  Stdout run.2 = Stdout p /\
  (run.1 = Exit 1 \/ exists servers, run.1 = Done servers /\ Stderr run.2 = Stderr p).
Proof.
  unfold getServers. run_io.
  destruct (GetServers scwApi true 0) as [servers|err]; simpl; eauto.
Qed.

(** X16. A run of [main] writes on standard output all or nothing: when it
    ends with exit status 0 it has written exactly one line there and nothing
    on standard error; otherwise the exit status is 1 or 2 and standard
    output is as it was. *)
Theorem X16_main_all_or_nothing TrimSpace encodeString walk w p :
  let run := main TrimSpace encodeString walk w p in
  (exitCode run.1 = 0 /\
   (exists text, Stdout run.2 = Stdout p +:+ text +:+ newline) /\
   Stderr run.2 = Stderr p) \/
  ((exitCode run.1 = 1 \/ exitCode run.1 = 2) /\ Stdout run.2 = Stdout p).
Proof.
  unfold main. run_io.
  destruct (initScwApi_run TrimSpace w p) as [[scwApi ->]|(p0 & -> & Hout & _)];
    [|right; simpl; eauto].
  destruct (String.eqb _ "--list").
  { pose proof (getServers_quiet scwApi p) as [Hout Hcase]. simpl in *.
    destruct (getServers scwApi p) as [o p1]. simpl in *.
    destruct Hcase as [->|(servers & -> & Herr)]; simpl; [right; eauto|].
    left. rewrite Hout, Herr. eauto. }
  destruct (String.eqb _ "--host"); [|right; simpl; eauto].
  destruct (Z.of_nat (length (os_Args w)) <? 2); simpl; [right; eauto|].
  destruct (os_Args w !! 2%nat) as [hostname|]; [|right; simpl; eauto].
  pose proof (getServer_quiet scwApi hostname p) as [Hout Hcase]. simpl in *.
  destruct (getServer scwApi hostname p) as [o p1] eqn:Hrun. simpl in *.
  destruct Hcase as [->|(vars & ->)]; simpl; [right; eauto|].
  apply getServer_Done in Hrun as (_ & _ & _ & _ & _ & _ & _ & Herr).
  left. rewrite Hout, Herr. eauto.
Qed.

(** ** The two operations agree on the names *)

(** X17. Every name that the list operation puts in a group is a name that
    [getServer] accepts: asked for that host, it goes past the check of the
    name and its first request is the one for the gateway [proxy0]. *)
Theorem X17_listed_names_are_accepted scwApi p result p' tag name :
  getServers scwApi p = (Done result, p') ->
  name ∈ result !!! tag ->
  regexp.MatchString allowedServerName name = true /\
  forall p0, exists calls,
    Calls (getServer scwApi name p0).2 = Calls p0 ++ CallGetServerID "proxy0" :: calls.
Proof.
  intros Hrun Hin.
  assert (regexp.MatchString allowedServerName name = true) as E.
  { unfold getServers in Hrun. revert Hrun. run_io.
    destruct (GetServers scwApi true 0) as [servers|err]; simpl; [|done].
    intros [= <- _]. rewrite getServers_loop_total in Hin.
    apply elem_of_tagged in Hin as (server & _ & Ha & <- & _). done. }
  split; [done|]. intros p0. unfold getServer. rewrite E. run_io.
  rewrite getScWServerByName_run.
  destruct (GetServerID scwApi "proxy0") as [id0|err]; simpl;
    [|by exists []].
  destruct (GetServer scwApi id0) as [sp0|err]; simpl;
    [|exists [CallGetServer id0]; by rewrite <- app_assoc].
  destruct (String.eqb name "proxy0"); simpl;
    [exists [CallGetServer id0]; by rewrite <- app_assoc|].
  rewrite getScWServerByName_run.
  destruct (GetServerID scwApi name) as [id1|err]; simpl;
    [|exists [CallGetServer id0; CallGetServerID name]; by rewrite <- !app_assoc].
  destruct (GetServer scwApi id1) as [srv|err]; simpl;
    exists [CallGetServer id0; CallGetServerID name; CallGetServer id1];
    by rewrite <- !app_assoc.
Qed.

Lemma X17_listed_names_witness :
  regexp.MatchString allowedServerName "worker10" = true /\
  forall p0, exists calls,
    Calls (getServer exampleApi "worker10" p0).2
    = Calls p0 ++ CallGetServerID "proxy0" :: calls.
Proof.
  destruct (getServers exampleApi start) as [[result| |] p'] eqn:Hrun;
    [|vm_compute in Hrun; discriminate Hrun..].
  apply (X17_listed_names_are_accepted exampleApi start result p' "all" "worker10" Hrun).
  vm_compute in Hrun. injection Hrun as <- _.
  apply (bool_decide_unpack _). vm_compute. reflexivity.
Defined.

(** X18. A host that the directory does not know: when the gateway is
    resolved and the name of another allowed target has no identifier, the
    run of [getServer] ends with exit status 1 after the line that carries the
    error, having sent three requests and returned no mapping. *)
Theorem X18_getServer_unknown_host scwApi name p gatewayId gateway err :
  regexp.MatchString allowedServerName name = true ->
  name <> "proxy0" ->
  GetServerID scwApi "proxy0" = Ok gatewayId ->
  GetServer scwApi gatewayId = Ok gateway ->
  GetServerID scwApi name = Err err ->
  getServer scwApi name p =
  (Exit 1,
   complained
     (requested p
        [CallGetServerID "proxy0"; CallGetServer gatewayId; CallGetServerID name])
     (logged ("scw-inv: failed to get server id with name: " +:+ err))).
Proof.
  intros E Hne E0 F0 E1. unfold getServer. rewrite E. run_io.
  rewrite getScWServerByName_run, E0, F0.
  apply String.eqb_neq in Hne. rewrite Hne. simpl.
  rewrite getScWServerByName_run, E1. unfold complained, requested. simpl.
  by rewrite <- !app_assoc.
Qed.

Lemma X18_getServer_unknown_host_witness :
  getServer exampleApi "master9" start =
  (Exit 1,
   complained
     (requested start
        [CallGetServerID "proxy0"; CallGetServer "id-0"; CallGetServerID "master9"])
     (logged ("scw-inv: failed to get server id with name: " +:+ "no such server"))).
Proof.
  apply (X18_getServer_unknown_host exampleApi "master9" start "id-0" exampleProxy0).
  - reflexivity.
  - discriminate.
  - reflexivity.
  - reflexivity.
  - reflexivity.
Defined.
